(** * DataProfiler: the profiling engine and the cleaning pipeline of [app.py]

    A shallow embedding of [df_profile], [correlation_heatmap] and the
    cleaning steps of the [/clean] handler, together with the part of pandas
    they rest on (Series and DataFrame operations), and the properties of the
    specification proved against it.

    Modelling conventions.
    - A float64 is a primitive binary64 float, so NaN, the infinities and
      rounding are those of the machine.  Sums follow numpy's pairwise
      summation (eight accumulators, blocks of at most 128), over the array
      in which pandas has put 0 for the missing cells.  The sign of a zero
      minimum or maximum is left to numpy's vectorised reduction and is not
      modelled.
    - The missing marker of pandas (NaN in a float64 column, the NaN object in
      an object column) is the cell [NA]; a cell [Float x] holds a float that
      is not NaN.  [mk_float] is the only way a computed float enters a column.
    - [df[col]] is the frame's own column, so [fillna(..., inplace=True)] on it
      is visible in [df], the new dtype of a converted object column
      included (pandas without copy-on-write).
    - The routes work on the files of the temporary directory and on the
      messages flashed in the session; reading and writing CSV, rendering
      and drawing are parameters of the embedding. *)

From Stdlib Require Import Floats.PrimFloat.
From Stdlib Require Import Numbers.Cyclic.Int63.Uint63.
From Stdlib Require Import List ZArith QArith String Ascii Bool Arith Lia.
From Stdlib Require Import Sorting.Sorted.
Import ListNotations.

Local Open Scope nat_scope.

(** ** numpy scalars *)

Module Np.

(** A count as a float64 (counts stay below 2^63). *)
Definition float_of_nat (n : nat) : float :=
  PrimFloat.of_uint63 (Uint63.of_Z (Z.of_nat n)).

(** int64 or uint64 to float64, rounded to nearest even.  Magnitudes
    from 2^63 on are halved first, the bit shifted out kept as a sticky
    bit so that the rounding is that of the whole integer. *)
Definition float_of_Z (z : Z) : float :=
  let a := Z.abs z in
  let m := if (a <? 2 ^ 63)%Z
           then PrimFloat.of_uint63 (Uint63.of_Z a)
           else (PrimFloat.of_uint63
                   (Uint63.of_Z (Z.lor (Z.shiftr a 1) (Z.land a 1))) * 2)%float in
  if (z <? 0)%Z then PrimFloat.opp m else m.

(** int64 arithmetic wraps around; uint64 arithmetic is modulo 2^64. *)
Definition wrap_int64 (z : Z) : Z := ((z + 2 ^ 63) mod 2 ^ 64 - 2 ^ 63)%Z.
Definition wrap_uint64 (z : Z) : Z := (z mod 2 ^ 64)%Z.

Definition two52 : float := 4503599627370496%float.

(** [np.rint]: round to the nearest integer, ties to even.  Below 2^52 in
    magnitude, adding and removing 2^52 rounds in the current mode; from
    2^52 on every float is an integer. *)
Definition rint (x : float) : float :=
  if (PrimFloat.abs x <? two52)%float
  then if (x <? 0)%float
       then ((x - two52) + two52)%float
       else ((x + two52) - two52)%float
  else x.

Fixpoint pow10 (n : nat) : float :=
  match n with
  | O => 1%float
  | S k => (pow10 k * 10)%float
  end.

(** [round(x, decimals)] on a numpy float64: scale, [rint], scale back. *)
Definition round (x : float) (decimals : nat) : float :=
  (rint (x * pow10 decimals) / pow10 decimals)%float.

Definition neg_zero : float := Eval compute in (PrimFloat.opp 0%float).

Definition add_lanes (r a : list float) : list float :=
  map (fun p => (fst p + snd p)%float) (combine r a).

(** The unrolled loop of the pairwise sum: [blocks] more blocks of eight
    are added to the eight accumulators [r]. *)
Fixpoint lanes (blocks : nat) (r : list float) (a : list float)
  : list float * list float :=
  match blocks with
  | O => (r, a)
  | S k => lanes k (add_lanes r (firstn 8 a)) (skipn 8 a)
  end.

(** A block of 8 to 128 floats: eight accumulators over the multiples of
    eight, combined as a tree, then the rest one by one. *)
Definition block_sum (a : list float) : float :=
  let blocks := List.length a / 8 - 1 in
  let '(r, rest) := lanes blocks (firstn 8 a) (skipn 8 a) in
  match r with
  | [r0; r1; r2; r3; r4; r5; r6; r7] =>
      fold_left PrimFloat.add rest
                (((r0 + r1) + (r2 + r3)) + ((r4 + r5) + (r6 + r7)))%float
  | _ => fold_left PrimFloat.add a neg_zero
  end.

(** [DOUBLE_pairwise_sum]: fewer than 8 floats are added one by one from
    -0; up to 128 go through [block_sum]; more are split in two, the first
    part a multiple of eight.  [fuel] bounds the splits; the length of the
    array is enough, as every split at least halves it. *)
Fixpoint pairwise_sum (fuel : nat) (a : list float) : float :=
  let n := List.length a in
  if n <? 8 then fold_left PrimFloat.add a neg_zero
  else if n <=? 128 then block_sum a
  else
    match fuel with
    | O => block_sum a
    | S k =>
        let half := n / 2 in
        let n2 := half - half mod 8 in
        (pairwise_sum k (firstn n2 a) + pairwise_sum k (skipn n2 a))%float
    end.

(** [ndarray.sum()] of a contiguous float64 array: the pairwise sum, added
    to the initial value of the reduction, which is -0 (so that negative
    zeros sum to a negative zero); an empty array sums to 0. *)
Definition sum (a : list float) : float :=
  match a with
  | [] => 0%float
  | _ => (neg_zero + pairwise_sum (List.length a) a)%float
  end.

(** The buffer of a reduction that casts: 8192 elements. *)
Definition buffer_size : nat := 64 * 128.

(** [ndarray.sum(dtype=float64)] of an integer array: the cast goes through
    the buffer, and each buffer is summed pairwise and added to the result
    so far.  [fuel] bounds the number of buffers. *)
Fixpoint sum_buffers (fuel : nat) (acc : float) (a : list float) : float :=
  match fuel, a with
  | _, [] => acc
  | O, _ => acc
  | S k, _ =>
      sum_buffers k (acc + pairwise_sum buffer_size (firstn buffer_size a))%float
                  (skipn buffer_size a)
  end.

Definition sum_cast (a : list float) : float :=
  match a with
  | [] => 0%float
  | _ => sum_buffers (List.length a) neg_zero a
  end.

(** The smaller and the larger of two floats that are not NaN.  Of a zero
    and its opposite the first is kept, as numpy's scalar loop does; its
    vectorised loop may keep either. *)
Definition minimum (x y : float) : float := if (y <? x)%float then y else x.
Definition maximum (x y : float) : float := if (x <? y)%float then y else x.

Fixpoint insert (x : float) (l : list float) : list float :=
  match l with
  | [] => [x]
  | y :: r => if (x <=? y)%float then x :: l else y :: insert x r
  end.

(** [np.sort] of a float64 array without NaN *)
Definition sort (l : list float) : list float := fold_right insert [] l.

(** [_lerp(a, b, t)] of [np.percentile] *)
Definition lerp (a b t : float) : float :=
  let diff := (b - a)%float in
  if (0.5 <=? t)%float then (b - diff * (1 - t))%float else (a + diff * t)%float.

(** The indexes and the weight of [np.percentile(a, 25 * k,
    method="linear")] on [n] values: the virtual index is [(n - 1) * k / 4];
    when it reaches the last index both neighbours are the last value and
    the weight is the virtual index plus one. *)
Definition quarter_indexes (n k : nat) : nat * nat * float :=
  let pos := (n - 1) * k in
  if 4 * (n - 1) <=? pos
  then (n - 1, n - 1, (float_of_nat pos / 4 + 1)%float)
  else (pos / 4, pos / 4 + 1, (float_of_nat (pos mod 4) / 4)%float).

(** [np.percentile] of a non-empty float64 array *)
Definition percentile_quarters (xs : list float) (k : nat) : float :=
  let sorted := sort xs in
  let '(lo, hi, gamma) := quarter_indexes (List.length sorted) k in
  lerp (nth lo sorted PrimFloat.nan) (nth hi sorted PrimFloat.nan) gamma.

Fixpoint insert_int (x : Z) (l : list Z) : list Z :=
  match l with
  | [] => [x]
  | y :: r => if (x <=? y)%Z then x :: l else y :: insert_int x r
  end.

Definition sort_int (l : list Z) : list Z := fold_right insert_int [] l.

(** [_lerp] on two integers: their difference is taken in the integer type
    ([wrap]), before the weight makes it a float. *)
Definition lerp_int (wrap : Z -> Z) (a b : Z) (t : float) : float :=
  let diff := float_of_Z (wrap (b - a)%Z) in
  if (0.5 <=? t)%float
  then (float_of_Z b - diff * (1 - t))%float
  else (float_of_Z a + diff * t)%float.

(** [np.percentile] of a non-empty integer array *)
Definition percentile_quarters_int (wrap : Z -> Z) (xs : list Z) (k : nat) : float :=
  let sorted := sort_int xs in
  let '(lo, hi, gamma) := quarter_indexes (List.length sorted) k in
  lerp_int wrap (nth lo sorted 0%Z) (nth hi sorted 0%Z) gamma.

End Np.

(** ** pandas: cells, Series, DataFrame *)

Inductive dtype : Type := int64 | uint64 | float64 | bool_ | object.

Inductive cell : Type :=
| NA
| Int (z : Z)
| Float (x : float)
| Bool (b : bool)
| Str (s : string).

Record Series : Type := mkSeries {
  s_dtype : dtype;
  values : list cell
}.

(** A frame keeps its row labels ([index]) and its columns in order. *)
Record DataFrame : Type := mkDataFrame {
  index : list nat;
  columns : list (string * Series)
}.

(** [len(df)] *)
Definition len (df : DataFrame) : nat := List.length (index df).

Definition column_names (df : DataFrame) : list string := map fst (columns df).

(** [df.empty]: some axis has length 0 *)
Definition empty (df : DataFrame) : bool :=
  match index df, columns df with
  | [], _ | _, [] => true
  | _, _ => false
  end.

Definition isna (c : cell) : bool :=
  match c with NA => true | _ => false end.

Definition notna (c : cell) : bool := negb (isna c).

(** A float computed by pandas, stored as a cell. *)
Definition mk_float (x : float) : cell :=
  if PrimFloat.is_nan x then NA else Float x.

(** Equality of the hash tables behind [duplicated], [unique] and
    [value_counts]: missing equals missing, floats compare with [==]. *)
Definition cell_eqb (a b : cell) : bool :=
  match a, b with
  | NA, NA => true
  | Int x, Int y => (x =? y)%Z
  | Float x, Float y => (x =? y)%float
  | Bool x, Bool y => Bool.eqb x y
  | Str x, Str y => String.eqb x y
  | _, _ => false
  end.

(** [pd.api.types.is_numeric_dtype]: booleans count as numeric here. *)
Definition is_numeric_dtype (d : dtype) : bool :=
  match d with int64 | uint64 | float64 | bool_ => true | object => false end.

(** Membership in [select_dtypes(include="number")]: booleans do not. *)
Definition is_number (d : dtype) : bool :=
  match d with int64 | uint64 | float64 => true | bool_ | object => false end.

(** [str(s.dtype)] *)
Definition dtype_name (d : dtype) : string :=
  match d with
  | int64 => "int64" | uint64 => "uint64" | float64 => "float64"
  | bool_ => "bool" | object => "object"
  end.

(** The column as a frame built by [read_csv] holds it. *)
Definition cell_fits (d : dtype) (c : cell) : Prop :=
  match d, c with
  | int64, Int _ => True
  | uint64, Int _ => True
  | float64, NA => True
  | float64, Float x => PrimFloat.is_nan x = false
  | bool_, Bool _ => True
  | object, NA | object, Str _ | object, Bool _ => True
  | _, _ => False
  end.

Record wf_frame (df : DataFrame) : Prop := {
  wf_names : NoDup (column_names df);
  wf_length : forall n s, In (n, s) (columns df) -> List.length (values s) = len df;
  wf_cells : forall n s, In (n, s) (columns df) -> Forall (cell_fits (s_dtype s)) (values s)
}.

(** ** Series operations *)

(** [s.isna().sum()] *)
Definition series_isna_sum (s : Series) : nat :=
  List.length (filter isna (values s)).

(** [s.count()]: the cells that are not missing *)
Definition series_count (s : Series) : nat :=
  List.length (filter notna (values s)).

(** [mean()] of a boolean mask: NaN on an empty mask, else the share of
    [True]. *)
Definition mask_mean (mask : list bool) : float :=
  match mask with
  | [] => PrimFloat.nan
  | _ => (Np.float_of_nat (List.length (filter id mask))
          / Np.float_of_nat (List.length mask))%float
  end.

(** [s.isna().mean()] *)
Definition series_isna_mean (s : Series) : float :=
  mask_mean (map isna (values s)).

Section Duplicated.
Context {A : Type} (eqb : A -> A -> bool).

(** [duplicated(keep="first")]: a position is flagged when its value was
    seen at an earlier position. *)
Fixpoint duplicated_from (seen : list A) (l : list A) : list bool :=
  match l with
  | [] => []
  | x :: r => existsb (eqb x) seen :: duplicated_from (x :: seen) r
  end.

Definition duplicated (l : list A) : list bool := duplicated_from [] l.
End Duplicated.

(** Boolean indexing: the entries of [l] where [mask] is [true]. *)
Fixpoint select {A : Type} (mask : list bool) (l : list A) : list A :=
  match mask, l with
  | b :: m, x :: r => if b then x :: select m r else select m r
  | _, _ => []
  end.

(** [s.duplicated().sum()] *)
Definition series_duplicates (s : Series) : nat :=
  List.length (filter id (duplicated cell_eqb (values s))).

(** [s.unique()]: first occurrences, in order; missing is one of them. *)
Definition unique (l : list cell) : list cell :=
  select (map negb (duplicated cell_eqb l)) l.

(** [s.nunique(dropna=False)] *)
Definition series_nunique (s : Series) : nat := List.length (unique (values s)).

(** The floats a numeric reduction ranges over: the cells that are not
    missing, an integer converted to float64. *)
Definition as_float (c : cell) : list float :=
  match c with
  | Int z => [Np.float_of_Z z]
  | Float x => [x]
  | _ => []
  end.

Definition numeric_values (s : Series) : list float :=
  flat_map as_float (values s).

(** The array a sum ranges over: [np.putmask(values, mask, 0)] has put 0
    where a cell is missing, so every cell keeps its position. *)
Definition zero_filled (c : cell) : float :=
  match c with
  | Int z => Np.float_of_Z z
  | Float x => x
  | _ => 0%float
  end.

Definition is_integer_dtype (d : dtype) : bool :=
  match d with int64 | uint64 => true | _ => false end.

(** [values.sum(dtype=float64)] of [nanmean]: an integer column is cast
    while it is summed, buffer by buffer. *)
Definition series_sum (s : Series) : float :=
  let a := map zero_filled (values s) in
  if is_integer_dtype (s_dtype s) then Np.sum_cast a else Np.sum a.

(** [s.mean()] ([nanops.nanmean]): the sum over the count of the cells that
    are not missing; NaN when there is none. *)
Definition series_mean (s : Series) : float :=
  if series_count s =? 0 then PrimFloat.nan
  else (series_sum s / Np.float_of_nat (series_count s))%float.

(** [s.std()] ([nanops.nanstd], without bottleneck): sample standard
    deviation ([ddof = 1]) by the two-pass algorithm, on the column as
    float64; NaN when the count does not exceed [ddof]. *)
Definition series_std (s : Series) : float :=
  let n := series_count s in
  if n <=? 1 then PrimFloat.nan
  else
    let a := map zero_filled (values s) in
    let avg := (Np.sum a / Np.float_of_nat n)%float in
    let sqr := map (fun c => if isna c then 0%float
                             else let x := zero_filled c in
                                  ((avg - x) * (avg - x))%float) (values s) in
    PrimFloat.sqrt (Np.sum sqr / Np.float_of_nat (n - 1))%float.

Definition series_min (s : Series) : float :=
  match numeric_values s with
  | [] => PrimFloat.nan
  | x :: r => fold_left Np.minimum r x
  end.

Definition series_max (s : Series) : float :=
  match numeric_values s with
  | [] => PrimFloat.nan
  | x :: r => fold_left Np.maximum r x
  end.

Definition as_int (c : cell) : list Z :=
  match c with
  | Int z => [z]
  | _ => []
  end.

(** [s.quantile(k / 4)]: [np.percentile] of the cells that are not missing,
    in the column's own dtype; NaN when there is none. *)
Definition series_quantile (s : Series) (k : nat) : float :=
  match numeric_values s with
  | [] => PrimFloat.nan
  | xs =>
      match s_dtype s with
      | int64 => Np.percentile_quarters_int Np.wrap_int64 (flat_map as_int (values s)) k
      | uint64 => Np.percentile_quarters_int Np.wrap_uint64 (flat_map as_int (values s)) k
      | _ => Np.percentile_quarters xs k
      end
  end.

(** Occurrences of [x] in [l], by the hash-table equality. *)
Definition count_eq (x : cell) (l : list cell) : nat :=
  List.length (filter (cell_eqb x) l).

(** The modes as the hash table yields them: the values that are not
    missing and reach the highest count, in order of first appearance. *)
Definition hashtable_mode (l : list cell) : list cell :=
  let vals := filter notna l in
  let keys := unique vals in
  let max_count := fold_right Nat.max 0 (map (fun k => count_eq k vals) keys) in
  filter (fun k => count_eq k vals =? max_count) keys.

(** Python's [<=] between two cells; [None] is a [TypeError]. *)
Definition cell_leb (a b : cell) : option bool :=
  match a, b with
  | Int x, Int y => Some (x <=? y)%Z
  | Float x, Float y => Some (x <=? y)%float
  | Bool x, Bool y => Some (implb x y)
  | Str x, Str y => Some (String.leb x y)
  | _, _ => None
  end.

Fixpoint insert_cell (x : cell) (l : list cell) : option (list cell) :=
  match l with
  | [] => Some [x]
  | y :: r =>
      match cell_leb x y with
      | None => None
      | Some true => Some (x :: l)
      | Some false =>
          match insert_cell x r with
          | None => None
          | Some r' => Some (y :: r')
          end
      end
  end.

(** [np.sort] of an object array; [None] when two cells do not compare. *)
Fixpoint sort_cells (l : list cell) : option (list cell) :=
  match l with
  | [] => Some []
  | x :: r =>
      match sort_cells r with
      | None => None
      | Some r' => insert_cell x r'
      end
  end.

(** [s.mode(dropna=True)]: the modes, sorted; left as the hash table gave
    them when sorting raises (pandas only warns). *)
Definition series_mode (s : Series) : list cell :=
  let modes := hashtable_mode (values s) in
  match sort_cells modes with
  | Some sorted => sorted
  | None => modes
  end.

Definition is_str (c : cell) : bool :=
  match c with Str _ => true | _ => false end.

Definition is_boolean (c : cell) : bool :=
  match c with Bool _ => true | _ => false end.

Definition is_float (c : cell) : bool :=
  match c with Float _ => true | _ => false end.

Definition int_within (lo hi : Z) (c : cell) : bool :=
  match c with
  | Int z => (lo <=? z)%Z && (z <? hi)%Z
  | _ => true
  end.

Definition to_float64 (c : cell) : cell :=
  match c with
  | Int z => Float (Np.float_of_Z z)
  | _ => c
  end.

(** [lib.maybe_convert_objects] on the cells of an object block: a string
    keeps the block as it is; booleans alone give a bool block, booleans
    beside anything else keep it; integers alone give int64, or uint64 when
    one exceeds int64 and none is negative; integers and floats, or numbers
    beside missing cells, give float64. *)
Definition convert (l : list cell) : dtype * list cell :=
  if existsb is_str l then (object, l)
  else if existsb is_boolean l
  then (if forallb is_boolean l then bool_ else object, l)
  else
    match l with
    | [] => (object, l)
    | _ =>
        let signed := forallb (int_within (- 2 ^ 63) (2 ^ 63)) l in
        let unsigned := forallb (int_within 0 (2 ^ 64)) l in
        if negb (signed || unsigned) then (object, l)
        else if existsb isna l || existsb is_float l
        then (float64, map to_float64 l)
        else if signed then (int64, l)
        else (uint64, l)
    end.

(** [s.fillna(value, inplace=True)] ([Block.fillna]): nothing happens to a
    block without a missing cell; otherwise [value] is put at the missing
    cells, and an object block is then converted to the dtype its cells
    allow.  A NaN [value] leaves the missing cells missing. *)
Definition series_fillna (s : Series) (value : cell) : Series :=
  if existsb isna (values s)
  then
    let filled := map (fun c => if isna c then value else c) (values s) in
    match s_dtype s with
    | object => let '(d, l) := convert filled in mkSeries d l
    | d => mkSeries d filled
    end
  else s.

(** [s.describe(percentiles=[.25, .5, .75])].  A numeric Series gets the
    eight statistics; a boolean Series is described as a categorical one:
    count, number of distinct values, and the first of the most frequent
    values ([top]) with its count ([freq]). *)
Inductive description : Type :=
| describe_numeric (count mean std min q25 q50 q75 max : float)
| describe_categorical (count unique : nat) (top : cell) (freq : option nat).

Definition series_describe (s : Series) : description :=
  match s_dtype s with
  | bool_ =>
      let vals := filter notna (values s) in
      match hashtable_mode vals with
      | [] => describe_categorical (series_count s) (List.length (unique vals)) NA None
      | top :: _ =>
          describe_categorical (series_count s) (List.length (unique vals))
            top (Some (count_eq top vals))
      end
  | _ =>
      describe_numeric
        (Np.float_of_nat (series_count s))
        (series_mean s) (series_std s) (series_min s)
        (series_quantile s 1) (series_quantile s 2) (series_quantile s 3)
        (series_max s)
  end.

(** ** DataFrame operations *)

Inductive result (A : Type) : Type :=
| Ok (a : A)
| KeyError (labels : list string).
Arguments Ok {A} a.
Arguments KeyError {A} labels.

Inductive errors_mode : Type := errors_raise | errors_ignore.

(** [Index.get_indexer_for] on one label: its positions, counted from
    [start], among [names]. *)
Fixpoint locations (label : string) (names : list string) (start : nat) : list nat :=
  match names with
  | [] => []
  | n :: r =>
      if String.eqb n label
      then start :: locations label r (S start)
      else locations label r (S start)
  end.

(** [Index.delete]: the entries whose position, counted from [start], is not
    in [positions]. *)
Fixpoint delete_at {A : Type} (positions : list nat) (l : list A) (start : nat) : list A :=
  match l with
  | [] => []
  | x :: r =>
      if existsb (Nat.eqb start) positions
      then delete_at positions r (S start)
      else x :: delete_at positions r (S start)
  end.

(** [df.drop(columns=labels, errors=...)]: the labels are located among the
    column names; a label found nowhere is a [KeyError] unless errors are
    ignored; the located positions are deleted. *)
Definition df_drop (df : DataFrame) (labels : list string) (errors : errors_mode)
  : result DataFrame :=
  let names := column_names df in
  let unknown := filter (fun l => match locations l names 0 with [] => true | _ => false end) labels in
  let indexer := flat_map (fun l => locations l names 0) labels in
  match errors, unknown with
  | errors_raise, _ :: _ => KeyError unknown
  | _, _ => Ok (mkDataFrame (index df) (delete_at indexer (columns df) 0))
  end.

(** Row [i] of the frame, across its columns. *)
Definition row (df : DataFrame) (i : nat) : list cell :=
  map (fun c => nth i (values (snd c)) NA) (columns df).

Definition rows (df : DataFrame) : list (list cell) :=
  map (row df) (seq 0 (len df)).

Fixpoint row_eqb (r1 r2 : list cell) : bool :=
  match r1, r2 with
  | [], [] => true
  | a :: r1', b :: r2' => cell_eqb a b && row_eqb r1' r2'
  | _, _ => false
  end.

(** [df.duplicated()] *)
Definition df_duplicated (df : DataFrame) : list bool :=
  duplicated row_eqb (rows df).

(** [df[mask]]: the rows where [mask] holds, labels kept. *)
Definition df_select (df : DataFrame) (mask : list bool) : DataFrame :=
  mkDataFrame
    (select mask (index df))
    (map (fun c => (fst c, mkSeries (s_dtype (snd c)) (select mask (values (snd c)))))
         (columns df)).

(** [df.drop_duplicates()]: an empty frame is copied; otherwise the first
    row of every group of equal rows is kept. *)
Definition df_drop_duplicates (df : DataFrame) : DataFrame :=
  if empty df then df
  else df_select df (map negb (df_duplicated df)).

(** [df.dropna(axis=1, thresh=thresh)]: the columns whose count of cells
    that are not missing is at least [thresh]. *)
Definition df_dropna_columns (df : DataFrame) (thresh : Q) : DataFrame :=
  mkDataFrame
    (index df)
    (filter (fun c => Qle_bool thresh (inject_Z (Z.of_nat (series_count (snd c)))))
            (columns df)).

(** [df.select_dtypes(include="number")] and [exclude="number"] *)
Definition select_number (df : DataFrame) : list (string * Series) :=
  filter (fun c => is_number (s_dtype (snd c))) (columns df).

(** ** The application: helper functions *)

Record info : Type := mkInfo {
  column : string;
  dtype_ : string;
  missing : nat;
  missing_pct : float;
  unique_ : nat;
  duplicates : nat;
  desc : option description
}.

(** Per-column summary: one [info] per column, in column order. *)
Definition df_profile (df : DataFrame) : list info :=
  map (fun c =>
         let col := fst c in
         let s := snd c in
         mkInfo col
                (dtype_name (s_dtype s))
                (series_isna_sum s)
                (Np.round (series_isna_mean s * 100)%float 2)
                (series_nunique s)
                (series_duplicates s)
                (if is_numeric_dtype (s_dtype s)
                 then Some (series_describe s)
                 else None))
      (columns df).

Section Figures.
(** What matplotlib renders is outside the embedding: a histogram of a
    column and the heat-map of the correlations of a numeric frame are
    taken as given encoders. *)
Variable image : Type.
Variable histogram : string -> Series -> image.
Variable heatmap : list (string * Series) -> image.

(** List of images, one per numeric column. *)
Definition numeric_histograms (df : DataFrame) : list image :=
  map (fun c => histogram (fst c) (snd c)) (select_number df).

Definition correlation_heatmap (df : DataFrame) : option image :=
  let num_df := select_number df in
  if List.length num_df <? 2 then None
  else Some (heatmap num_df).
End Figures.

(** ** The application: cleaning *)

(** The cleaning selections of the submitted form. *)
Record form : Type := mkForm {
  drop_cols : list string;
  drop_duplicates : bool;
  drop_empty_cols : bool;
  fill_numeric_mean : bool;
  fill_categorical_mode : bool
}.

Definition step_drop_cols (f : form) (df : DataFrame) : result DataFrame :=
  match drop_cols f with
  | [] => Ok df
  | labels => df_drop df labels errors_ignore
  end.

Definition step_drop_duplicates (f : form) (df : DataFrame) : DataFrame :=
  if drop_duplicates f then df_drop_duplicates df else df.

(** [len(df) * 0.5] is exact in binary64 for every row count below 2^53;
    the threshold is kept as that rational number. *)
Definition step_drop_empty_cols (f : form) (df : DataFrame) : DataFrame :=
  if drop_empty_cols f then
    let thresh := (inject_Z (Z.of_nat (len df)) * (1 # 2))%Q in  (* require >= 50 % non-null *)
    df_dropna_columns df thresh
  else df.

(** [df[col].fillna(df[col].mean(), inplace=True)] *)
Definition fill_mean (s : Series) : Series :=
  series_fillna s (mk_float (series_mean s)).

(** [mode = df[col].mode(dropna=True)], then [fillna(mode[0])] unless
    [mode] is empty. *)
Definition fill_mode (s : Series) : Series :=
  match series_mode s with
  | [] => s
  | mode0 :: _ => series_fillna s mode0
  end.

(** The two loops run over the labels of the selected columns; labels are
    unique in a frame read by [read_csv], so each selected column is visited
    once and the loop is a map over the columns. *)
Definition step_fill_numeric_mean (f : form) (df : DataFrame) : DataFrame :=
  if fill_numeric_mean f then
    mkDataFrame (index df)
      (map (fun c => if is_number (s_dtype (snd c)) then (fst c, fill_mean (snd c)) else c)
           (columns df))
  else df.

Definition step_fill_categorical_mode (f : form) (df : DataFrame) : DataFrame :=
  if fill_categorical_mode f then
    mkDataFrame (index df)
      (map (fun c => if is_number (s_dtype (snd c)) then c else (fst c, fill_mode (snd c)))
           (columns df))
  else df.

(** The frame on entry to the sparse-column step. *)
Definition after_drop_duplicates (f : form) (df : DataFrame) : result DataFrame :=
  match step_drop_cols f df with
  | Ok df1 => Ok (step_drop_duplicates f df1)
  | KeyError e => KeyError e
  end.

(** The frame on entry to the fill steps. *)
Definition after_drop_empty_cols (f : form) (df : DataFrame) : result DataFrame :=
  match after_drop_duplicates f df with
  | Ok df2 => Ok (step_drop_empty_cols f df2)
  | KeyError e => KeyError e
  end.

Definition after_fill_numeric_mean (f : form) (df : DataFrame) : result DataFrame :=
  match after_drop_empty_cols f df with
  | Ok df3 => Ok (step_fill_numeric_mean f df3)
  | KeyError e => KeyError e
  end.

(** The cleaned frame that [/clean] writes out. *)
Definition clean (f : form) (df : DataFrame) : result DataFrame :=
  match after_fill_numeric_mean f df with
  | Ok df4 => Ok (step_fill_categorical_mode f df4)
  | KeyError e => KeyError e
  end.

(** ** The application: routes *)

(** What the routes use besides frames: the CSV reader and writer, the
    renderers of the report, and the temporary directory.  [read_csv]
    either parses or raises with a text.  Drawing a figure may raise as
    well (matplotlib refuses a histogram over values that are not finite),
    which is [None]; writing a frame out and rendering the table do not. *)
Inductive parsed : Type :=
| Parsed (df : DataFrame)
| Unreadable (e : string).

Record externals : Type := mkExternals {
  csv : Type;
  png : Type;
  html : Type;
  read_csv : csv -> parsed;
  to_csv : DataFrame -> csv;
  to_html : list info -> html;
  histogram : string -> Series -> option png;
  heatmap : list (string * Series) -> option png;
  tempdir : string
}.

(** The figures of a list, unless drawing one of them raised. *)
Fixpoint all_drawn {A : Type} (l : list (option A)) : option (list A) :=
  match l with
  | [] => Some []
  | None :: _ => None
  | Some x :: r =>
      match all_drawn r with
      | None => None
      | Some r' => Some (x :: r')
      end
  end.

(** The texts given to [flash]: "No file selected.", "Cannot read CSV: e",
    "Warning: large file with n rows may be slow." and "Session expired —
    please upload again.". *)
Inductive message : Type :=
| NoFileSelected
| CannotReadCSV (e : string)
| LargeFile (rows : nat)
| SessionExpired.

(** The files of the temporary directory, by path. *)
Definition store (content : Type) : Type := list (string * content).

(** Reading the file at [path], when there is one ([os.path.exists]). *)
Fixpoint lookup {content : Type} (path : string) (files : store content) : option content :=
  match files with
  | [] => None
  | (p, c) :: r => if String.eqb p path then Some c else lookup path r
  end.

(** [os.remove(path)] *)
Definition remove {content : Type} (path : string) (files : store content) : store content :=
  filter (fun e => negb (String.eqb (fst e) path)) files.

(** Writing a file, over whatever was at [path]. *)
Definition write {content : Type} (path : string) (c : content) (files : store content)
  : store content :=
  (path, c) :: remove path files.

(** [os.path.join(tempfile.gettempdir(), name)] *)
Definition join (dir name : string) : string := (dir ++ "/" ++ name)%string.

(** The server between two requests of one client: the files, and the
    flashed messages the session holds until a page shows them. *)
Record state (E : externals) : Type := mkState {
  files : store (csv E);
  flashes : list message
}.
Arguments mkState {E} files flashes.
Arguments files {E} s.
Arguments flashes {E} s.

Inductive response (E : externals) : Type :=
| IndexPage (msg : option message)
| ProfilePage (table : html E) (hist_imgs : list (png E)) (corr_img : option (png E))
              (tempname : string) (columns : list string)
| SendFile (path : string) (download_name : string) (content : csv E)
| InternalServerError.
Arguments IndexPage {E} msg.
Arguments ProfilePage {E} table hist_imgs corr_img tempname columns.
Arguments SendFile {E} path download_name content.
Arguments InternalServerError {E}.

(** [flash(m)] *)
Definition flash {E : externals} (m : message) (st : state E) : state E :=
  mkState (files st) (flashes st ++ [m]).

(** [render_template_string(INDEX_HTML)]: [get_flashed_messages()] takes
    every pending message out of the session, and the page shows the first. *)
Definition render_index {E : externals} (st : state E) : response E * state E :=
  (IndexPage (hd_error (flashes st)), mkState (files st) []).

Module Routes.

(** [/] *)
Definition index {E : externals} (st : state E) : response E * state E :=
  render_index st.

(** [/upload]: [file] is the uploaded file, name and content, when the
    request has one; [uuid] is what [uuid.uuid4()] returns.  An exception
    while the figures are drawn is not caught: the request fails before the
    snapshot is written, and the session is left as it was (the server runs
    in debug mode, which hands the exception over without a response of the
    application). *)
Definition upload {E : externals} (uuid : string) (file : option (string * csv E))
           (st : state E) : response E * state E :=
  match file with
  | None => render_index (flash NoFileSelected st)
  | Some (filename, stream) =>
      if String.eqb filename ""
      then render_index (flash NoFileSelected st)
      else
        match read_csv E stream with
        | Unreadable e => render_index (flash (CannotReadCSV e) st)
        | Parsed df =>
            (* Warn if huge *)
            let st1 := if (2000000 <? Z.of_nat (len df))%Z
                       then flash (LargeFile (len df)) st
                       else st in
            (* Build profile + visuals *)
            let html_table := to_html E (df_profile df) in
            match all_drawn (numeric_histograms (option (png E)) (histogram E) df) with
            | None => (InternalServerError, st)
            | Some hist_imgs =>
                match correlation_heatmap (option (png E)) (heatmap E) df with
                | Some None => (InternalServerError, st)
                | corr =>
                    let corr_img := match corr with Some img => img | None => None end in
                    (* Save original CSV to temp for later cleaning *)
                    let temp_name := join (tempdir E) (uuid ++ ".csv") in
                    (ProfilePage html_table hist_imgs corr_img temp_name (column_names df),
                     mkState (write temp_name (to_csv E df) (files st1)) (flashes st1))
                end
            end
        end
  end.

(** [/clean]: [temp_csv] is the form's hidden field, [f] its cleaning
    selections.  An exception of [read_csv] is not caught: the request
    fails before the file is removed. *)
Definition clean {E : externals} (uuid : string) (temp_csv : option string) (f : form)
           (st : state E) : response E * state E :=
  let expired := render_index (flash SessionExpired st) in
  match temp_csv with
  | None => expired
  | Some path =>
      if String.eqb path "" then expired
      else
        match lookup path (files st) with
        | None => expired
        | Some text =>
            match read_csv E text with
            | Unreadable _ => (InternalServerError, st)
            | Parsed df =>
                let tidy := remove path (files st) in
                match clean f df with
                | KeyError _ => (InternalServerError, mkState tidy (flashes st))
                | Ok cleaned =>
                    let out_path := join (tempdir E) ("cleaned_" ++ uuid ++ ".csv") in
                    (SendFile out_path "cleaned_data.csv" (to_csv E cleaned),
                     mkState (write out_path (to_csv E cleaned) tidy) (flashes st))
                end
            end
        end
  end.

End Routes.

(** The requests the application answers, and their dispatch. *)
Inductive request (E : externals) : Type :=
| GetIndex
| PostUpload (uuid : string) (file : option (string * csv E))
| PostClean (uuid : string) (temp_csv : option string) (f : form).
Arguments GetIndex {E}.
Arguments PostUpload {E} uuid file.
Arguments PostClean {E} uuid temp_csv f.

Definition handle {E : externals} (req : request E) (st : state E)
  : response E * state E :=
  match req with
  | GetIndex => Routes.index st
  | PostUpload uuid file => Routes.upload uuid file st
  | PostClean uuid temp_csv f => Routes.clean uuid temp_csv f st
  end.

(** The request was answered with the profile page or the cleaned file. *)
Definition succeeded {E : externals} (r : response E) : bool :=
  match r with
  | ProfilePage _ _ _ _ _ | SendFile _ _ _ => true
  | IndexPage _ | InternalServerError => false
  end.

(** The paths a request may write or remove. *)
Definition touched {E : externals} (req : request E) : list string :=
  match req with
  | GetIndex => []
  | PostUpload uuid _ => [join (tempdir E) (uuid ++ ".csv")]
  | PostClean uuid temp_csv _ =>
      match temp_csv with
      | Some path => [path; join (tempdir E) ("cleaned_" ++ uuid ++ ".csv")]
      | None => [join (tempdir E) ("cleaned_" ++ uuid ++ ".csv")]
      end
  end.

(** Every column is as long as the index. *)
Definition rectangular (df : DataFrame) : Prop :=
  forall c, In c (columns df) -> List.length (values (snd c)) = len df.

(** A frame without its first row. *)
Definition tail_frame (df : DataFrame) : DataFrame :=
  mkDataFrame
    (tl (index df))
    (map (fun c => (fst c, mkSeries (s_dtype (snd c)) (tl (values (snd c)))))
         (columns df)).

(** Externals that keep a frame as its own CSV text and render nothing. *)
Definition plain_externals : externals :=
  mkExternals DataFrame unit unit Parsed (fun df => df) (fun _ => tt)
              (fun _ _ => Some tt) (fun _ => Some tt) "/tmp".

(** ** Frames and forms used as examples *)

Local Open Scope string_scope.

(** The scenario of the specification: [id] and [score]. *)
Definition scenario_frame : DataFrame :=
  mkDataFrame [0; 1; 2; 3]
    [("id", mkSeries int64 [Int 1; Int 2; Int 3; Int 4]);
     ("score", mkSeries float64 [Float 10; NA; Float 10; Float 30])].

(** Five rows, the fourth repeating the third; [s] has one value, [x] two. *)
Definition sparse_frame : DataFrame :=
  mkDataFrame [0; 1; 2; 3; 4]
    [("a", mkSeries int64 [Int 1; Int 1; Int 1; Int 1; Int 2]);
     ("s", mkSeries float64 [NA; NA; NA; NA; Float 3]);
     ("x", mkSeries float64 [Float 1; Float 2; NA; NA; NA])].

(** A file with a header line and no data line. *)
Definition header_only_frame : DataFrame :=
  mkDataFrame [] [("a", mkSeries object [])].

(** A text column where ["b"] and ["a"] both occur once, ["b"] first. *)
Definition tied_text_frame : DataFrame :=
  mkDataFrame [0; 1; 2]
    [("t", mkSeries object [Str "b"; Str "a"; NA])].

(** An object column of booleans with a missing cell, as [read_csv]
    builds it from [True], an empty field and [False]. *)
Definition answers_frame : DataFrame :=
  mkDataFrame [0; 1; 2]
    [("ok", mkSeries object [Bool true; NA; Bool false])].

(** Ten cells of 0.1 after a missing one. *)
Definition tenths : Series :=
  mkSeries float64 (NA :: repeat (Float 0x1.999999999999ap-4) 10).

(** Twenty-four finite cells, 1e308 and -1e308 at the first two of every
    eight, and a missing cell. *)
Definition swing : Series :=
  mkSeries float64
    (flat_map (fun _ => [Float 0x1.1ccf385ebc8ap+1023; Float (-0x1.1ccf385ebc8ap+1023);
                         Float 0; Float 0; Float 0; Float 0; Float 0; Float 0])
              (seq 0 3) ++ [NA]).

(** A float column holding both infinities and a missing cell. *)
Definition infinities_frame : DataFrame :=
  mkDataFrame [0; 1; 2]
    [("x", mkSeries float64
             [Float PrimFloat.infinity; Float PrimFloat.neg_infinity; NA])].

Definition only_drop_duplicates_and_empty_cols : form :=
  mkForm [] true true false false.
Definition only_drop_empty_cols : form := mkForm [] false true false false.
Definition only_fill_numeric_mean : form := mkForm [] false false true false.
Definition only_fill_categorical_mode : form := mkForm [] false false false true.

Definition only_drop_duplicates : form := mkForm [] true false false false.

(** Every column of the scenario listed for dropping, duplicates too. *)
Definition drop_both_columns : form := mkForm ["id"; "score"] true false false false.

(** A boolean column. *)
Definition flags_frame : DataFrame :=
  mkDataFrame [0; 1; 2]
    [("ok", mkSeries bool_ [Bool true; Bool false; Bool true])].

(** A frame of 2,000,001 rows. *)
Definition large_frame : DataFrame :=
  mkDataFrame (repeat 0 (Z.to_nat 2000001))
    [("a", mkSeries int64 (repeat (Int 1) (Z.to_nat 2000001)))].

(** A server holding one snapshot of the scenario, no message pending. *)
Definition one_snapshot : state plain_externals :=
  @mkState plain_externals [("/tmp/u1.csv", scenario_frame)] [].

Definition no_file : state plain_externals := @mkState plain_externals [] [].

Local Close Scope string_scope.

(** ** Predicates used in the statements *)

(** No cell that is not missing equals an earlier one. *)
Definition distinct_cells (l : list cell) : Prop :=
  ForallOrdPairs (fun a b => cell_eqb b a = false) l.

(** The column's name is one of [labels]. *)
Definition named_in (labels : list string) (c : string * Series) : bool :=
  existsb (String.eqb (fst c)) labels.

(** Kinds of cells: text, booleans, and the cells whose hash-table equality
    is equality itself (every cell but a float). *)
Definition is_text (c : cell) : Prop :=
  match c with Str _ => True | _ => False end.

Definition is_bool (c : cell) : Prop :=
  match c with Bool _ => True | _ => False end.

Definition exact_cell (c : cell) : Prop :=
  match c with Float _ => False | _ => True end.

(** [a <= b] holds in Python. *)
Definition cell_le (a b : cell) : Prop := cell_leb a b = Some true.

(** A column of one kind: every cell is missing or of kind [K]. *)
Definition cells_of (K : cell -> Prop) (l : list cell) : Prop :=
  Forall (fun c => isna c = true \/ K c) l.

Definition text_cells : list cell -> Prop := cells_of is_text.
Definition bool_cells : list cell -> Prop := cells_of is_bool.

(** * Properties *)

(** ** Sums *)

Section Fuel.

(** The fuel of the pairwise sum does not matter once it reaches the length
    of the array: every split leaves two shorter arrays. *)
Lemma pairwise_sum_fuel :
  forall (fuel fuel' : nat) (a : list float),
    List.length a <= fuel ->
    List.length a <= fuel' ->
    Np.pairwise_sum fuel a = Np.pairwise_sum fuel' a.
Proof.
  induction fuel as [|k IH]; intros fuel' a H H'.
  - destruct a; [| simpl in H; lia]. destruct fuel'; reflexivity.
  - destruct fuel' as [|k'].
    + destruct a; [| simpl in H'; lia]. reflexivity.
    + cbn [Np.pairwise_sum].
      destruct (Nat.ltb_spec (List.length a) 8) as [|H8]; [reflexivity |].
      destruct (Nat.leb_spec (List.length a) 128) as [|H128]; [reflexivity |].
      set (n := List.length a) in *.
      set (n2 := n / 2 - (n / 2) mod 8).
      assert (Hlo : 1 <= n2 /\ n2 < n).
      { unfold n2.
        pose proof (Nat.mod_upper_bound (n / 2) 8 ltac:(lia)).
        pose proof (Nat.div_lt n 2 ltac:(lia) ltac:(lia)).
        assert (64 <= n / 2) by (apply Nat.div_le_lower_bound; lia).
        lia. }
      f_equal; apply IH.
      * rewrite length_firstn. fold n. lia.
      * rewrite length_firstn. fold n. lia.
      * rewrite length_skipn. fold n. lia.
      * rewrite length_skipn. fold n. lia.
Qed.

(** Nor does the fuel of the buffered sum: every buffer shortens what is
    left of the array. *)
Lemma sum_buffers_fuel :
  forall (fuel fuel' : nat) (acc : float) (a : list float),
    List.length a <= fuel ->
    List.length a <= fuel' ->
    Np.sum_buffers fuel acc a = Np.sum_buffers fuel' acc a.
Proof.
  induction fuel as [|k IH]; intros fuel' acc a H H'.
  - destruct a; [| simpl in H; lia]. destruct fuel'; reflexivity.
  - destruct fuel' as [|k'].
    + destruct a; [| simpl in H'; lia]. reflexivity.
    + destruct a as [|x r]; [reflexivity |].
      cbn [Np.sum_buffers].
      assert (Hb : 1 <= Np.buffer_size) by (unfold Np.buffer_size; lia).
      apply IH; rewrite length_skipn; simpl in *; lia.
Qed.

End Fuel.

(** ** Cleaning with nothing selected *)

(** C5.  Cleaning with every option disabled (no column to drop, every
    flag off) returns the input frame itself: same columns in the same
    order, same rows, same cells. *)
Theorem clean_nothing_selected :
  forall df : DataFrame,
    clean (mkForm [] false false false false) df = Ok df.
Proof.
  intros [idx cols]. reflexivity.
Qed.

(** ** Dropping columns *)

Section DropColumns.

Lemma locations_In :
  forall label names start i,
    In i (locations label names start) <->
    exists k, i = start + k /\ nth_error names k = Some label.
Proof.
  intros label names; induction names as [|n r IH]; intros start i; simpl.
  - split; [intros [] | intros [k [_ H]]; destruct k; discriminate].
  - destruct (String.eqb_spec n label) as [->|Hne]; simpl; rewrite IH.
    + split.
      * intros [<-|[k [-> Hk]]].
        -- exists 0. split; [lia | reflexivity].
        -- exists (S k). split; [lia | exact Hk].
      * intros [[|k] [-> Hk]].
        -- left; lia.
        -- right. exists k. split; [lia | exact Hk].
    + split.
      * intros [k [-> Hk]]. exists (S k). split; [lia | exact Hk].
      * intros [[|k] [-> Hk]].
        -- simpl in Hk. congruence.
        -- exists k. split; [lia | exact Hk].
Qed.

Lemma delete_at_filter :
  forall (A : Type) (p : A -> bool) (positions : list nat) (l : list A) (start : nat),
    (forall k x, nth_error l k = Some x ->
                 existsb (Nat.eqb (start + k)) positions = p x) ->
    delete_at positions l start = filter (fun x => negb (p x)) l.
Proof.
  intros A p positions l; induction l as [|x r IH]; intros start H; simpl.
  - reflexivity.
  - assert (Hx : existsb (Nat.eqb start) positions = p x).
    { rewrite <- (H 0 x eq_refl). f_equal. f_equal. lia. }
    rewrite Hx.
    assert (Hr : delete_at positions r (S start) = filter (fun y => negb (p y)) r).
    { apply IH. intros k y Hk. rewrite <- (H (S k) y Hk). f_equal. f_equal. lia. }
    rewrite Hr. destruct (p x); reflexivity.
Qed.

Lemma named_in_In :
  forall labels c, named_in labels c = true <-> In (fst c) labels.
Proof.
  intros labels c. unfold named_in. rewrite existsb_exists. split.
  - intros [l [Hin Heq]]. apply String.eqb_eq in Heq. now subst.
  - intro Hin. exists (fst c). split; [exact Hin | apply String.eqb_refl].
Qed.

Lemma indexer_named_in :
  forall (labels : list string) (cols : list (string * Series)) k c,
    nth_error cols k = Some c ->
    existsb (Nat.eqb (0 + k))
            (flat_map (fun l => locations l (map fst cols) 0) labels)
    = named_in labels c.
Proof.
  intros labels cols k c Hk. apply Bool.eq_iff_eq_true.
  rewrite named_in_In, existsb_exists. split.
  - intros [i [Hin Heq]]. apply Nat.eqb_eq in Heq. subst i.
    apply in_flat_map in Hin. destruct Hin as [l [Hl Hloc]].
    apply locations_In in Hloc. destruct Hloc as [k' [Hk' Hnth]].
    assert (k' = k) by lia. subst k'.
    rewrite nth_error_map, Hk in Hnth. simpl in Hnth.
    injection Hnth as <-. exact Hl.
  - intro Hin. exists k. split; [| apply Nat.eqb_eq; lia].
    apply in_flat_map. exists (fst c). split; [exact Hin |].
    apply locations_In. exists k. split; [lia |].
    rewrite nth_error_map, Hk. reflexivity.
Qed.

(** With errors ignored, [drop] is a filter on the column names. *)
Lemma df_drop_ignore :
  forall df labels,
    df_drop df labels errors_ignore =
    Ok (mkDataFrame (index df)
                    (filter (fun c => negb (named_in labels c)) (columns df))).
Proof.
  intros df labels. unfold df_drop. simpl. f_equal. f_equal.
  apply delete_at_filter. intros k c Hk.
  unfold column_names. now apply indexer_named_in.
Qed.

Lemma step_drop_cols_filter :
  forall f df,
    step_drop_cols f df =
    Ok (mkDataFrame (index df)
                    (filter (fun c => negb (named_in (drop_cols f) c)) (columns df))).
Proof.
  intros f df. unfold step_drop_cols.
  destruct (drop_cols f) as [|l ls] eqn:E.
  - destruct df as [idx cols]. simpl. f_equal. f_equal.
    symmetry. apply forallb_filter_id. apply forallb_forall. reflexivity.
  - apply df_drop_ignore.
Qed.

End DropColumns.

(** C9.  The drop-columns step never raises, whatever names the form
    lists; it removes exactly the columns whose name is listed (a name that
    matches no column removes nothing) and leaves every other column as it
    was, values and order, with the rows untouched. *)
Theorem drop_columns_removes_exactly_listed :
  forall (f : form) (df : DataFrame),
  exists df1,
    step_drop_cols f df = Ok df1 /\
    index df1 = index df /\
    columns df1 =
      filter (fun c => negb (existsb (String.eqb (fst c)) (drop_cols f))) (columns df) /\
    (forall n s, In (n, s) (columns df1) <->
                 In (n, s) (columns df) /\ ~ In n (drop_cols f)) /\
    ((forall n, In n (drop_cols f) -> ~ In n (column_names df)) -> df1 = df).
Proof.
  intros f df. rewrite step_drop_cols_filter. eexists. split; [reflexivity |].
  simpl. split; [reflexivity |]. split; [reflexivity |]. split.
  - intros n s. rewrite filter_In. rewrite negb_true_iff.
    rewrite <- not_true_iff_false, named_in_In. simpl. reflexivity.
  - intro Hnone. destruct df as [idx cols]. simpl in *. f_equal.
    apply forallb_filter_id. apply forallb_forall. intros [n s] Hin.
    apply negb_true_iff. apply not_true_iff_false. rewrite named_in_In. simpl.
    intro Hn. apply (Hnone n Hn). unfold column_names. simpl.
    apply in_map_iff. exists (n, s). split; [reflexivity | exact Hin].
Qed.

(** ** Sparse columns *)

Section SparseColumns.

(** Half the row count against a count of cells, in natural numbers. *)
Lemma half_threshold :
  forall n c : nat,
    Qle_bool (inject_Z (Z.of_nat n) * (1 # 2)) (inject_Z (Z.of_nat c))
    = (n <=? 2 * c).
Proof.
  intros n c. apply Bool.eq_iff_eq_true.
  rewrite Qle_bool_iff, Nat.leb_le. unfold Qle, Qmult, inject_Z. simpl.
  lia.
Qed.

Lemma step_drop_empty_cols_on :
  forall f df,
    drop_empty_cols f = true ->
    step_drop_empty_cols f df =
    mkDataFrame (index df)
      (filter (fun c => len df <=? 2 * series_count (snd c)) (columns df)).
Proof.
  intros f df Hon. unfold step_drop_empty_cols, df_dropna_columns.
  rewrite Hon. f_equal. apply filter_ext. intros c. apply half_threshold.
Qed.

Lemma step_fill_numeric_mean_names :
  forall f df, column_names (step_fill_numeric_mean f df) = column_names df.
Proof.
  intros f df. unfold step_fill_numeric_mean, column_names.
  destruct (fill_numeric_mean f); [| reflexivity]. simpl.
  rewrite map_map. apply map_ext. intros [n s]. simpl.
  destruct (is_number (s_dtype s)); reflexivity.
Qed.

Lemma step_fill_categorical_mode_names :
  forall f df, column_names (step_fill_categorical_mode f df) = column_names df.
Proof.
  intros f df. unfold step_fill_categorical_mode, column_names.
  destruct (fill_categorical_mode f); [| reflexivity]. simpl.
  rewrite map_map. apply map_ext. intros [n s]. simpl.
  destruct (is_number (s_dtype s)); reflexivity.
Qed.

(** The pipeline never raises, and its stages compose. *)
Lemma clean_stages :
  forall f df,
  exists df1,
    step_drop_cols f df = Ok df1 /\
    after_drop_duplicates f df = Ok (step_drop_duplicates f df1) /\
    after_drop_empty_cols f df =
      Ok (step_drop_empty_cols f (step_drop_duplicates f df1)) /\
    after_fill_numeric_mean f df =
      Ok (step_fill_numeric_mean f
            (step_drop_empty_cols f (step_drop_duplicates f df1))) /\
    clean f df =
      Ok (step_fill_categorical_mode f
            (step_fill_numeric_mean f
               (step_drop_empty_cols f (step_drop_duplicates f df1)))).
Proof.
  intros f df. unfold clean, after_fill_numeric_mean, after_drop_empty_cols,
    after_drop_duplicates.
  rewrite step_drop_cols_filter. eexists. repeat split; reflexivity.
Qed.

End SparseColumns.

(** C1.  With both duplicate removal and sparse-column removal selected,
    the threshold is taken on the frame left by duplicate removal: the
    columns of the result are the columns of the deduplicated frame, minus
    exactly those whose count of non-missing cells is strictly below half
    the number of rows that frame has. *)
Theorem sparsity_threshold_after_deduplication :
  forall (f : form) (df : DataFrame),
    drop_duplicates f = true ->
    drop_empty_cols f = true ->
    exists df1 out,
      step_drop_cols f df = Ok df1 /\
      clean f df = Ok out /\
      let dedup := df_drop_duplicates df1 in
      column_names out =
        map fst (filter (fun c => negb (2 * series_count (snd c) <? len dedup))
                        (columns dedup)).
Proof.
  intros f df Hdup Hsparse.
  destruct (clean_stages f df) as [df1 [E1 [E2 [_ [_ E5]]]]].
  exists df1. eexists. split; [exact E1 |]. split; [exact E5 |].
  cbv zeta.
  rewrite step_fill_categorical_mode_names, step_fill_numeric_mean_names.
  rewrite (step_drop_empty_cols_on _ _ Hsparse).
  unfold step_drop_duplicates. rewrite Hdup. unfold column_names. simpl.
  f_equal. apply filter_ext. intros c.
  rewrite Nat.ltb_antisym, negb_involutive. reflexivity.
Qed.

(** ** Well-formed frames through the row and column steps *)

Section WellFormed.

Lemma NoDup_names_filter :
  forall (p : string * Series -> bool) (l : list (string * Series)),
    NoDup (map fst l) -> NoDup (map fst (filter p l)).
Proof.
  intros p l; induction l as [|c r IH]; simpl; intro H.
  - constructor.
  - inversion H as [|? ? Hnotin Hr]; subst.
    destruct (p c); simpl; [constructor |]; auto.
    intro Hin. apply Hnotin. apply in_map_iff in Hin.
    destruct Hin as [c' [Hc' Hf]]. apply filter_In in Hf.
    apply in_map_iff. exists c'. tauto.
Qed.

Lemma NoDup_names_functional :
  forall (l : list (string * Series)) n s s',
    NoDup (map fst l) -> In (n, s) l -> In (n, s') l -> s = s'.
Proof.
  intros l; induction l as [|c r IH]; simpl; intros n s s' H H1 H2.
  - contradiction.
  - inversion H as [|? ? Hnotin Hr]; subst.
    destruct H1 as [->|H1], H2 as [E|H2].
    + congruence.
    + exfalso. apply Hnotin. apply in_map_iff. exists (n, s'). auto.
    + subst c. exfalso. apply Hnotin. apply in_map_iff. exists (n, s). auto.
    + eapply IH; eauto.
Qed.

Lemma kept_name_iff :
  forall (p : string * Series -> bool) (l : list (string * Series)) n s,
    NoDup (map fst l) -> In (n, s) l ->
    (In n (map fst (filter p l)) <-> p (n, s) = true).
Proof.
  intros p l n s Hnd Hin. split.
  - intro H. apply in_map_iff in H. destruct H as [[n' s'] [E Hf]].
    simpl in E. subst n'. apply filter_In in Hf. destruct Hf as [Hin' Hp].
    now rewrite (NoDup_names_functional l n s s' Hnd Hin Hin').
  - intro Hp. apply in_map_iff. exists (n, s). split; [reflexivity |].
    apply filter_In. auto.
Qed.

Lemma select_length :
  forall (A B : Type) (mask : list bool) (l1 : list A) (l2 : list B),
    List.length l1 = List.length l2 ->
    List.length (select mask l1) = List.length (select mask l2).
Proof.
  intros A B mask; induction mask as [|b m IH]; intros [|x r] [|y t] H;
    simpl in *; try reflexivity; try discriminate.
  injection H as H. destruct b; simpl; auto.
Qed.

Lemma select_Forall :
  forall (A : Type) (P : A -> Prop) (mask : list bool) (l : list A),
    Forall P l -> Forall P (select mask l).
Proof.
  intros A P mask; induction mask as [|b m IH]; intros [|x r] H; simpl;
    try constructor.
  inversion H; subst. destruct b; [constructor |]; auto.
Qed.

Lemma wf_filter_columns :
  forall (p : string * Series -> bool) df,
    wf_frame df -> wf_frame (mkDataFrame (index df) (filter p (columns df))).
Proof.
  intros p df [Hn Hl Hc]. constructor; unfold column_names, len in *; simpl.
  - now apply NoDup_names_filter.
  - intros n s H. apply filter_In in H. eapply Hl. apply H.
  - intros n s H. apply filter_In in H. eapply Hc. apply H.
Qed.

Lemma wf_select :
  forall df mask, wf_frame df -> wf_frame (df_select df mask).
Proof.
  intros df mask [Hn Hl Hc]. constructor; unfold column_names, len in *; simpl.
  - rewrite map_map. simpl. exact Hn.
  - intros n s H. apply in_map_iff in H. destruct H as [[n' s'] [E Hin]].
    injection E as <- <-. simpl. apply select_length. eapply Hl. exact Hin.
  - intros n s H. apply in_map_iff in H. destruct H as [[n' s'] [E Hin]].
    injection E as <- <-. simpl. apply select_Forall. eapply Hc. exact Hin.
Qed.

Lemma wf_drop_duplicates :
  forall df, wf_frame df -> wf_frame (df_drop_duplicates df).
Proof.
  intros df H. unfold df_drop_duplicates.
  destruct (empty df); [exact H | now apply wf_select].
Qed.

Lemma wf_after_drop_duplicates :
  forall f df df2,
    wf_frame df -> after_drop_duplicates f df = Ok df2 -> wf_frame df2.
Proof.
  intros f df df2 H E. unfold after_drop_duplicates in E.
  rewrite step_drop_cols_filter in E. injection E as <-.
  unfold step_drop_duplicates.
  destruct (drop_duplicates f).
  - apply wf_drop_duplicates. now apply wf_filter_columns.
  - now apply wf_filter_columns.
Qed.

Lemma missing_plus_count :
  forall s, series_isna_sum s + series_count s = List.length (values s).
Proof.
  intro s. unfold series_isna_sum, series_count, notna. apply filter_length.
Qed.

End WellFormed.

(** C2.  With sparse-column removal selected, a column of the frame that
    reaches that step survives exactly when its count of non-missing cells is
    at least half the row count: a column with 60% of its cells missing is
    absent from the result, a column with exactly 50% missing is kept. *)
Theorem sparse_column_threshold_is_strict :
  forall (f : form) (df : DataFrame),
    wf_frame df ->
    drop_empty_cols f = true ->
    exists df2 out,
      after_drop_duplicates f df = Ok df2 /\
      clean f df = Ok out /\
      forall n s,
        In (n, s) (columns df2) ->
        (In n (column_names out) <-> len df2 <= 2 * series_count s) /\
        (0 < len df2 -> 10 * series_isna_sum s = 6 * len df2 ->
         ~ In n (column_names out)) /\
        (2 * series_isna_sum s = len df2 -> In n (column_names out)).
Proof.
  intros f df Hwf Hsparse.
  destruct (clean_stages f df) as [df1 [_ [E2 [_ [_ E5]]]]].
  eexists. eexists. split; [exact E2 |]. split; [exact E5 |].
  intros n s Hin.
  pose proof (wf_after_drop_duplicates f df _ Hwf E2) as [Hnd Hlen _].
  set (df2 := step_drop_duplicates f df1) in *.
  assert (Hiff : In n (column_names
                         (step_fill_categorical_mode f
                            (step_fill_numeric_mean f (step_drop_empty_cols f df2))))
                 <-> len df2 <= 2 * series_count s).
  { rewrite step_fill_categorical_mode_names, step_fill_numeric_mean_names.
    rewrite (step_drop_empty_cols_on _ _ Hsparse). unfold column_names. simpl.
    rewrite (kept_name_iff _ _ n s Hnd Hin). simpl. apply Nat.leb_le. }
  pose proof (missing_plus_count s) as Hsum.
  rewrite (Hlen n s Hin) in Hsum.
  split; [exact Hiff |]. split.
  - intros Hpos H60 Hkept. apply Hiff in Hkept. lia.
  - intros H50. apply Hiff. lia.
Qed.

(** ** The profile *)

Section Profile.

Lemma cell_eqb_NA_l : forall c, cell_eqb NA c = isna c.
Proof. intros []; reflexivity. Qed.

Lemma cell_eqb_NA_r : forall c, cell_eqb c NA = isna c.
Proof. intros []; reflexivity. Qed.

(** A value that is not missing is looked up among the values that are
    not missing. *)
Lemma existsb_eqb_notna :
  forall x seen,
    isna x = false ->
    existsb (cell_eqb x) seen = existsb (cell_eqb x) (filter notna seen).
Proof.
  intros x seen Hx; induction seen as [|y r IH]; simpl.
  - reflexivity.
  - unfold notna at 1. destruct (isna y) eqn:Ey; simpl.
    + destruct y; try discriminate. rewrite cell_eqb_NA_r, Hx. exact IH.
    + now rewrite IH.
Qed.

Lemma existsb_eqb_NA :
  forall seen, existsb (cell_eqb NA) seen = existsb isna seen.
Proof.
  induction seen as [|c t IHt]; [reflexivity |].
  cbn [existsb]. now rewrite cell_eqb_NA_l, IHt.
Qed.

Lemma count_flags_cons :
  forall (b : bool) (l : list bool),
    List.length (filter id (b :: l)) =
    (if b then 1 else 0) + List.length (filter id l).
Proof. intros [] l; reflexivity. Qed.

(** Every missing cell but the first one seen is a duplicate, on top of
    the duplicates among the values that are not missing. *)
Lemma duplicated_from_missing :
  forall l seen,
    List.length (filter id (duplicated_from cell_eqb seen l)) =
    List.length (filter id (duplicated_from cell_eqb (filter notna seen)
                                            (filter notna l)))
    + (if existsb isna seen
       then List.length (filter isna l)
       else List.length (filter isna l) - 1).
Proof.
  intros l; induction l as [|x r IH]; intros seen.
  - simpl. destruct (existsb isna seen); reflexivity.
  - change (duplicated_from cell_eqb seen (x :: r))
      with (existsb (cell_eqb x) seen :: duplicated_from cell_eqb (x :: seen) r).
    rewrite count_flags_cons, IH.
    destruct (isna x) eqn:Ex.
    + destruct x; try discriminate.
      change (filter notna (NA :: r)) with (filter notna r).
      change (filter notna (NA :: seen)) with (filter notna seen).
      change (filter isna (NA :: r)) with (NA :: filter isna r).
      change (existsb isna (NA :: seen)) with true.
      replace (existsb (cell_eqb NA) seen) with (existsb isna seen)
        by (symmetry; apply existsb_eqb_NA).
      destruct (existsb isna seen); simpl List.length; lia.
    + assert (Hr : filter notna (x :: r) = x :: filter notna r)
        by (simpl; unfold notna at 1; now rewrite Ex).
      assert (Hs : filter notna (x :: seen) = x :: filter notna seen)
        by (simpl; unfold notna at 1; now rewrite Ex).
      assert (Hm : filter isna (x :: r) = filter isna r)
        by (simpl; now rewrite Ex).
      assert (He : existsb isna (x :: seen) = existsb isna seen)
        by (simpl; now rewrite Ex).
      rewrite Hr, Hs, Hm, He.
      change (duplicated_from cell_eqb (filter notna seen) (x :: filter notna r))
        with (existsb (cell_eqb x) (filter notna seen)
              :: duplicated_from cell_eqb (x :: filter notna seen) (filter notna r)).
      rewrite count_flags_cons, <- (existsb_eqb_notna x seen Ex). lia.
Qed.

Lemma duplicated_from_distinct :
  forall l seen,
    distinct_cells l ->
    (forall x y, In x seen -> In y l -> cell_eqb y x = false) ->
    filter id (duplicated_from cell_eqb seen l) = [].
Proof.
  intros l; induction l as [|y r IH]; intros seen Hl Hs.
  - reflexivity.
  - inversion Hl as [|? ? Hy Hr]; subst. simpl.
    assert (E : existsb (cell_eqb y) seen = false).
    { apply not_true_iff_false. intro H. apply existsb_exists in H.
      destruct H as [x [Hx Hxy]]. rewrite (Hs x y Hx) in Hxy; [discriminate |].
      now left. }
    rewrite E. simpl. apply IH; [exact Hr |].
    intros x z [<-|Hx] Hz.
    + rewrite Forall_forall in Hy. now apply Hy.
    + apply Hs; [exact Hx | now right].
Qed.

Lemma mask_mean_isna :
  forall l,
    l <> [] ->
    mask_mean (map isna l) =
    (Np.float_of_nat (List.length (filter isna l))
     / Np.float_of_nat (List.length l))%float.
Proof.
  intros l Hl. destruct l as [|c r]; [congruence |].
  unfold mask_mean. cbn [map]. rewrite <- map_cons.
  rewrite length_map. f_equal. f_equal.
  generalize (c :: r). intros m. induction m as [|x t IH]; simpl; [reflexivity |].
  unfold id at 1. destruct (isna x); simpl; now rewrite IH.
Qed.

End Profile.

(** C10.  Missing cells compare equal in the [duplicates] count: in a
    column with [k >= 2] missing cells whose other values are pairwise
    distinct, every missing cell after the first is a duplicate, so the
    profile reports [duplicates = k - 1]. *)
Theorem missing_cells_are_duplicates_of_each_other :
  forall (df : DataFrame) (col : string) (s : Series) (k : nat),
    In (col, s) (columns df) ->
    series_isna_sum s = k ->
    2 <= k ->
    distinct_cells (filter notna (values s)) ->
    exists i,
      In i (df_profile df) /\ column i = col /\
      missing i = k /\ duplicates i = k - 1.
Proof.
  intros df col s k Hin Hk Hk2 Hd.
  exists (mkInfo col (dtype_name (s_dtype s)) (series_isna_sum s)
                 (Np.round (series_isna_mean s * 100)%float 2)
                 (series_nunique s) (series_duplicates s)
                 (if is_numeric_dtype (s_dtype s)
                  then Some (series_describe s) else None)).
  split.
  - unfold df_profile. apply in_map_iff. exists (col, s). split; [reflexivity | exact Hin].
  - simpl. split; [reflexivity |]. split; [exact Hk |].
    unfold series_duplicates, duplicated.
    rewrite duplicated_from_missing.
    rewrite duplicated_from_distinct; [| exact Hd | intros x y []].
    simpl. unfold series_isna_sum in Hk. rewrite Hk. reflexivity.
Qed.

(** C8.  For a numeric column with fewer than two non-missing values the
    profile is produced all the same, and the standard deviation it reports
    is NaN, the missing marker, not zero. *)
Theorem std_of_short_numeric_column_is_missing :
  forall (df : DataFrame) (col : string) (s : Series),
    In (col, s) (columns df) ->
    is_number (s_dtype s) = true ->
    series_count s < 2 ->
    exists i count mean std min q25 q50 q75 max,
      In i (df_profile df) /\ column i = col /\
      desc i = Some (describe_numeric count mean std min q25 q50 q75 max) /\
      PrimFloat.is_nan std = true /\
      std <> 0%float.
Proof.
  intros df col s Hin Hnum Hcount.
  assert (Hstd : series_std s = PrimFloat.nan).
  { unfold series_std.
    destruct (Nat.leb_spec (series_count s) 1); [reflexivity | lia]. }
  exists (mkInfo col (dtype_name (s_dtype s)) (series_isna_sum s)
                 (Np.round (series_isna_mean s * 100)%float 2)
                 (series_nunique s) (series_duplicates s)
                 (if is_numeric_dtype (s_dtype s)
                  then Some (series_describe s) else None)).
  exists (Np.float_of_nat (series_count s)), (series_mean s), (series_std s),
    (series_min s), (series_quantile s 1), (series_quantile s 2),
    (series_quantile s 3), (series_max s).
  split.
  - unfold df_profile. apply in_map_iff. exists (col, s). split; [reflexivity | exact Hin].
  - simpl. split; [reflexivity |]. split.
    + unfold series_describe. destruct (s_dtype s); try discriminate; reflexivity.
    + rewrite Hstd. split; [reflexivity |].
      intro H. apply (f_equal PrimFloat.is_nan) in H. discriminate H.
Qed.

(** C7.  The correlation heat-map is produced exactly when the frame has at
    least two numeric columns; with fewer there is none. *)
Theorem correlation_heatmap_iff_two_numeric_columns :
  forall (image : Type) (heatmap : list (string * Series) -> image) (df : DataFrame),
    ((exists img, correlation_heatmap image heatmap df = Some img) <->
     2 <= List.length (select_number df)) /\
    (correlation_heatmap image heatmap df = None <->
     List.length (select_number df) < 2).
Proof.
  intros image heatmap df. unfold correlation_heatmap.
  destruct (Nat.ltb_spec (List.length (select_number df)) 2) as [Hlt|Hge].
  - split; split.
    + intros [img H]. discriminate.
    + lia.
    + intros _. exact Hlt.
    + reflexivity.
  - split; split.
    + intros _. exact Hge.
    + intros _. eexists. reflexivity.
    + discriminate.
    + lia.
Qed.

(** C4, as the code has it.  In a frame with at least one row the profile
    reports [missing_pct] as [missing / rowCount * 100] rounded to two
    decimals; in a frame with no row the mean of the empty mask is NaN and
    [missing_pct] is NaN (nothing is raised, and it is not 0). *)
Theorem missing_pct_is_rounded_share_or_nan :
  forall (df : DataFrame) (col : string) (s : Series),
    wf_frame df ->
    In (col, s) (columns df) ->
    exists i,
      In i (df_profile df) /\ column i = col /\
      missing i = series_isna_sum s /\
      (0 < len df ->
       missing_pct i =
       Np.round (Np.float_of_nat (missing i) / Np.float_of_nat (len df) * 100)%float 2) /\
      (len df = 0 -> PrimFloat.is_nan (missing_pct i) = true).
Proof.
  intros df col s [_ Hlen _] Hin.
  exists (mkInfo col (dtype_name (s_dtype s)) (series_isna_sum s)
                 (Np.round (series_isna_mean s * 100)%float 2)
                 (series_nunique s) (series_duplicates s)
                 (if is_numeric_dtype (s_dtype s)
                  then Some (series_describe s) else None)).
  split.
  - unfold df_profile. apply in_map_iff. exists (col, s). split; [reflexivity | exact Hin].
  - simpl. split; [reflexivity |]. split; [reflexivity |].
    specialize (Hlen col s Hin). split.
    + intro Hpos. unfold series_isna_mean. rewrite mask_mean_isna.
      * rewrite Hlen. reflexivity.
      * intro E. rewrite E in Hlen. simpl in Hlen. lia.
    + intro H0. rewrite H0 in Hlen. apply length_zero_iff_nil in Hlen.
      unfold series_isna_mean. rewrite Hlen. reflexivity.
Qed.

(** C4, counterexample.  The profile of a frame with a header and no row
    gives its column [missing_pct = NaN], which is not 0. *)
Lemma missing_pct_of_header_only_frame_is_nan :
  len header_only_frame = 0 /\
  exists i,
    df_profile header_only_frame = [i] /\
    PrimFloat.is_nan (missing_pct i) = true /\
    missing_pct i <> 0%float.
Proof.
  split; [reflexivity |]. eexists. split; [reflexivity |]. simpl.
  split; [reflexivity |].
  intro H. apply (f_equal PrimFloat.is_nan) in H. discriminate H.
Qed.

(** ** Filling numeric columns *)

Section FillMean.

Lemma Forall2_map_right :
  forall (A B : Type) (R : A -> B -> Prop) (h : A -> B) (l : list A),
    (forall x, In x l -> R x (h x)) -> Forall2 R l (map h l).
Proof.
  intros A B R h l; induction l as [|x r IH]; intro H; simpl; constructor.
  - apply H. now left.
  - apply IH. intros y Hy. apply H. now right.
Qed.

Lemma isna_mk_float :
  forall x, isna (mk_float x) = PrimFloat.is_nan x.
Proof. intro x. unfold mk_float. destruct (PrimFloat.is_nan x); reflexivity. Qed.

Lemma none_missing :
  forall l, existsb isna l = false <-> Forall (fun x => isna x = false) l.
Proof.
  induction l as [|c r IH]; simpl.
  - split; [constructor | reflexivity].
  - rewrite orb_false_iff, IH. split.
    + intros [Hc Hr]. now constructor.
    + intro H. inversion H; subst. now split.
Qed.

Lemma fill_none_missing :
  forall v l,
    Forall (fun x => isna x = false) l ->
    map (fun x => if isna x then v else x) l = l.
Proof.
  intros v l H. induction H as [|c r Hc Hr IH]; simpl; [reflexivity |].
  now rewrite Hc, IH.
Qed.

Lemma fill_with_NA :
  forall l, map (fun x => if isna x then NA else x) l = l.
Proof.
  induction l as [|c r IH]; simpl; [reflexivity |].
  rewrite IH. destruct c; reflexivity.
Qed.

Lemma fill_notna :
  forall v l,
    isna v = false ->
    Forall (fun x => isna x = false) (map (fun x => if isna x then v else x) l).
Proof.
  intros v l Hv. induction l as [|c r IH]; simpl; constructor; auto.
  destruct (isna c) eqn:E; assumption.
Qed.

(** The conversion of an object block keeps the cells, or turns the
    integers among them into floats. *)
Lemma convert_values :
  forall l, snd (convert l) = l \/ snd (convert l) = map to_float64 l.
Proof.
  intro l. unfold convert.
  destruct (existsb is_str l); [now left |].
  destruct (existsb is_boolean l); [now left |].
  destruct l as [|c r]; [now left |].
  destruct (negb _); [now left |].
  destruct (_ || _); [now right |].
  destruct (forallb _ _); now left.
Qed.

Lemma convert_notna :
  forall l,
    Forall (fun x => isna x = false) l ->
    Forall (fun x => isna x = false) (snd (convert l)).
Proof.
  intros l H. destruct (convert_values l) as [E|E]; rewrite E; [exact H |].
  clear E. induction H as [|c r Hc Hr IH]; simpl; [constructor |].
  constructor; [| exact IH].
  destruct c; simpl in *; congruence.
Qed.

(** On a column that is not an object column, filling changes cells only. *)
Lemma fillna_typed :
  forall s v,
    s_dtype s <> object ->
    series_fillna s v =
    mkSeries (s_dtype s) (map (fun x => if isna x then v else x) (values s)).
Proof.
  intros [d l] v Hd. unfold series_fillna. simpl in *.
  destruct (existsb isna l) eqn:E.
  - destruct d; congruence.
  - apply none_missing in E. now rewrite fill_none_missing.
Qed.

Lemma number_not_object :
  forall d, is_number d = true -> d <> object.
Proof. intros d H E. subst d. discriminate H. Qed.

Lemma fillna_NA :
  forall s, s_dtype s <> object -> series_fillna s NA = s.
Proof.
  intros s Hd. rewrite fillna_typed by exact Hd.
  rewrite fill_with_NA. now destruct s.
Qed.

Lemma fillna_notna :
  forall s v, isna v = false -> Forall (fun x => isna x = false) (values (series_fillna s v)).
Proof.
  intros [d l] v Hv. unfold series_fillna. simpl.
  destruct (existsb isna l) eqn:E; [| now apply none_missing].
  pose proof (fill_notna v l Hv) as Hf.
  destruct d; simpl; try exact Hf.
  pose proof (convert_notna _ Hf) as Hc.
  destruct (convert _) as [d' l']. exact Hc.
Qed.

Lemma fillna_all_present :
  forall s v, Forall (fun x => isna x = false) (values s) -> series_fillna s v = s.
Proof.
  intros s v H. unfold series_fillna.
  apply none_missing in H. now rewrite H.
Qed.

Lemma mean_of_all_missing :
  forall s, series_count s = 0 -> series_mean s = PrimFloat.nan.
Proof. intros s H0. unfold series_mean. now rewrite H0. Qed.

Lemma fill_mean_typed :
  forall s, s_dtype s <> object -> s_dtype (fill_mean s) = s_dtype s.
Proof. intros s Hd. unfold fill_mean. now rewrite fillna_typed. Qed.

(** Mode filling keeps the dtype of every column but an object column. *)
Lemma fill_mode_typed :
  forall s, s_dtype s <> object -> s_dtype (fill_mode s) = s_dtype s.
Proof.
  intros s Hd. unfold fill_mode. destruct (series_mode s); [reflexivity |].
  now rewrite fillna_typed.
Qed.

End FillMean.

(** C6, as the code has it.  With mean filling selected, every numeric
    column of the frame that reaches the step has each missing cell replaced
    by the column's mean over its own non-missing values, and is left with
    no missing cell, provided that mean is a number; when the mean is NaN
    (a column entirely missing, or one whose values do not sum to a
    number) the column is left as it is and nothing is raised. *)
Theorem mean_fill_when_mean_is_a_number :
  forall (f : form) (df : DataFrame),
    fill_numeric_mean f = true ->
    exists df3 out,
      after_drop_empty_cols f df = Ok df3 /\
      clean f df = Ok out /\
      index out = index df3 /\
      Forall2
        (fun c c' =>
           fst c' = fst c /\
           (is_number (s_dtype (snd c)) = true ->
            let m := series_mean (snd c) in
            s_dtype (snd c') = s_dtype (snd c) /\
            values (snd c') =
              map (fun x => if isna x then mk_float m else x) (values (snd c)) /\
            (PrimFloat.is_nan m = false ->
             Forall (fun x => isna x = false) (values (snd c'))) /\
            (PrimFloat.is_nan m = true -> snd c' = snd c) /\
            (series_count (snd c) = 0 -> snd c' = snd c)))
        (columns df3) (columns out).
Proof.
  intros f df Hon.
  destruct (clean_stages f df) as [df1 [_ [_ [E3 [_ E5]]]]].
  eexists. eexists. split; [exact E3 |]. split; [exact E5 |].
  set (df3 := step_drop_empty_cols f (step_drop_duplicates f df1)).
  assert (Hfill : forall s,
             is_number (s_dtype s) = true ->
             let m := series_mean s in
             s_dtype (fill_mean s) = s_dtype s /\
             values (fill_mean s) =
               map (fun x => if isna x then mk_float m else x) (values s) /\
             (PrimFloat.is_nan m = false ->
              Forall (fun x => isna x = false) (values (fill_mean s))) /\
             (PrimFloat.is_nan m = true -> fill_mean s = s) /\
             (series_count s = 0 -> fill_mean s = s)).
  { intros s Hs m. apply number_not_object in Hs.
    split; [unfold fill_mean; now rewrite fillna_typed |].
    split; [unfold fill_mean; now rewrite fillna_typed |].
    assert (Hnan : PrimFloat.is_nan m = true -> fill_mean s = s).
    { intro H. unfold fill_mean, mk_float. fold m. rewrite H. now apply fillna_NA. }
    split; [| split; [exact Hnan |]].
    - intro H. apply fillna_notna. now rewrite isna_mk_float.
    - intro H0. apply Hnan. unfold m. now rewrite mean_of_all_missing. }
  unfold step_fill_categorical_mode, step_fill_numeric_mean. rewrite Hon.
  destruct (fill_categorical_mode f); simpl; (split; [reflexivity |]).
  - rewrite map_map. apply Forall2_map_right. intros [n s] _. simpl.
    destruct (is_number (s_dtype s)) eqn:En; simpl.
    + rewrite (fill_mean_typed s) by now apply number_not_object.
      rewrite En. simpl. split; [reflexivity |]. intros _. now apply Hfill.
    + rewrite En. simpl. split; [reflexivity |]. discriminate.
  - apply Forall2_map_right. intros [n s] _. simpl.
    destruct (is_number (s_dtype s)) eqn:En; simpl.
    + split; [reflexivity |]. intros _. now apply Hfill.
    + split; [reflexivity |]. discriminate.
Qed.

(** C6, counterexample.  A float column holding [inf], [-inf] and one
    missing cell has two non-missing values; their mean is NaN, and mean
    filling leaves the missing cell missing. *)
Lemma mean_fill_leaves_missing_cell_when_mean_is_nan :
  exists s,
    columns infinities_frame = [("x"%string, s)] /\
    is_number (s_dtype s) = true /\
    series_count s = 2 /\
    clean only_fill_numeric_mean infinities_frame = Ok infinities_frame /\
    In NA (values s).
Proof.
  eexists. split; [reflexivity |]. split; [reflexivity |].
  split; [reflexivity |]. split; [reflexivity |]. simpl. tauto.
Qed.

(** The sum is pairwise: the eleven cells are added in eight lanes, and
    the mean of ten cells of 0.1 is 0.1, where adding them one after the
    other would give 0.09999999999999999. *)
Lemma mean_of_tenths :
  series_mean tenths = 0x1.999999999999ap-4%float /\
  (fold_left PrimFloat.add (numeric_values tenths) 0 / 10)%float
  = 0x1.9999999999999p-4%float.
Proof. split; vm_compute; reflexivity. Qed.

(** Finite values may have no mean either: in [swing] the lanes of the sum
    overflow to [inf] and [-inf], the mean is NaN, and mean filling leaves
    the missing cell missing. *)
Lemma mean_of_finite_values_overflows :
  series_count swing = 24 /\
  PrimFloat.is_nan (series_mean swing) = true /\
  fill_mean swing = swing.
Proof. repeat split; vm_compute; reflexivity. Qed.

(** ** Filling text columns *)

Section StringOrder.

Lemma string_leb_trans :
  forall a b c : string,
    String.leb a b = true -> String.leb b c = true -> String.leb a c = true.
Proof.
  unfold String.leb.
  induction a as [|x a IH]; intros [|y b] [|z c]; simpl; try easy.
  specialize (IH b c). unfold Ascii.compare.
  destruct (N.compare_spec (N_of_ascii x) (N_of_ascii y)) as [Exy|Exy|Exy];
    destruct (N.compare_spec (N_of_ascii y) (N_of_ascii z)) as [Eyz|Eyz|Eyz];
    destruct (N.compare_spec (N_of_ascii x) (N_of_ascii z)) as [Exz|Exz|Exz];
    try easy; try lia.
Qed.

Lemma string_leb_false :
  forall a b : string, String.leb a b = false -> String.leb b a = true.
Proof.
  intros a b H. destruct (String.leb_total a b) as [E|E]; congruence.
Qed.

End StringOrder.

Section Mode.

Lemma cell_eqb_eq :
  forall a b, exact_cell a -> (cell_eqb a b = true <-> a = b).
Proof.
  intros [] [] Ha; simpl; try contradiction; try (split; [discriminate | congruence]);
    try tauto.
  - rewrite Z.eqb_eq. split; congruence.
  - rewrite Bool.eqb_true_iff. split; congruence.
  - rewrite String.eqb_eq. split; congruence.
Qed.

Lemma is_text_exact : forall c, is_text c -> exact_cell c.
Proof. intros [] H; try contradiction; exact I. Qed.

Lemma existsb_eqb_In :
  forall x l, exact_cell x -> (existsb (cell_eqb x) l = true <-> In x l).
Proof.
  intros x l Hx. rewrite existsb_exists. split.
  - intros [y [Hy E]]. apply (cell_eqb_eq x y Hx) in E. now subst.
  - intro H. exists x. split; [exact H | now apply cell_eqb_eq].
Qed.

(** First occurrences, given the values already seen. *)
Lemma In_first_occurrences :
  forall l seen k,
    Forall exact_cell l ->
    (In k (select (map negb (duplicated_from cell_eqb seen l)) l) <->
     In k l /\ ~ In k seen).
Proof.
  induction l as [|x r IH]; intros seen k Hl.
  - simpl. tauto.
  - inversion Hl as [|? ? Hx Hr]; subst.
    cbn [duplicated_from map select].
    pose proof (existsb_eqb_In x seen Hx) as Hseen.
    pose proof (cell_eqb_eq x k Hx) as Hxk.
    destruct (existsb (cell_eqb x) seen) eqn:E; cbn [negb].
    + rewrite IH by exact Hr. simpl.
      assert (In x seen) by now apply Hseen.
      split.
      * intros [H1 H2]. split; [now right | tauto].
      * intros [[->|H1] H2]; [contradiction |].
        split; [exact H1 |]. intros [->|H3]; contradiction.
    + assert (~ In x seen) by (intro H; apply Hseen in H; discriminate).
      cbn [In]. rewrite IH by exact Hr. simpl.
      split.
      * intros [->|[H1 H2]]; [tauto |]. split; [now right | tauto].
      * intros [[->|H1] H2]; [now left |].
        destruct (cell_eqb x k) eqn:Ek.
        -- left. now apply Hxk.
        -- right. split; [exact H1 |]. intros [->|H3]; [| contradiction].
           assert (cell_eqb k k = true) by now apply cell_eqb_eq.
           congruence.
Qed.

Lemma In_unique :
  forall l k, Forall exact_cell l -> (In k (unique l) <-> In k l).
Proof.
  intros l k Hl. unfold unique, duplicated.
  rewrite In_first_occurrences by exact Hl. simpl. tauto.
Qed.

Lemma max_of_counts :
  forall (g : cell -> nat) (keys : list cell),
    (forall k, In k keys -> g k <= fold_right Nat.max 0 (map g keys)) /\
    (keys <> [] -> exists k, In k keys /\ g k = fold_right Nat.max 0 (map g keys)).
Proof.
  intros g keys; induction keys as [|x r [IH1 IH2]]; simpl.
  - split; [intros k [] | congruence].
  - split.
    + intros k [->|H]; [lia |]. specialize (IH1 k H). lia.
    + intros _. destruct r as [|y t].
      * exists x. simpl. split; [now left | lia].
      * destruct IH2 as [k [Hk Ek]]; [discriminate |].
        destruct (Nat.le_ge_cases (g x) (fold_right Nat.max 0 (map g (y :: t)))) as [L|L].
        -- exists k. split; [now right | lia].
        -- exists x. split; [now left | lia].
Qed.

(** The modes are the values that are not missing and that no other
    value outnumbers. *)
Lemma hashtable_mode_spec :
  forall l k,
    Forall exact_cell (filter notna l) ->
    (In k (hashtable_mode l) <->
     In k (filter notna l) /\
     forall k', In k' (filter notna l) ->
                count_eq k' (filter notna l) <= count_eq k (filter notna l)).
Proof.
  intros l k Hl. unfold hashtable_mode.
  set (vals := filter notna l) in *.
  set (g := fun k0 => count_eq k0 vals).
  destruct (max_of_counts g (unique vals)) as [Hle Hex].
  rewrite filter_In, Nat.eqb_eq, In_unique by exact Hl.
  fold (g k). split.
  - intros [Hk Emax]. split; [exact Hk |]. intros k' Hk'.
    fold (g k'). rewrite Emax. apply Hle. now apply In_unique.
  - intros [Hk Hmax]. split; [exact Hk |].
    destruct Hex as [k0 [Hk0 E0]].
    { intro E. assert (In k (unique vals)) by now apply In_unique.
      rewrite E in H. contradiction. }
    apply (proj1 (In_unique vals k0 Hl)) in Hk0.
    specialize (Hmax k0 Hk0). fold (g k0) (g k) in Hmax.
    assert (g k <= fold_right Nat.max 0 (map g (unique vals)))
      by (apply Hle; now apply In_unique).
    lia.
Qed.

Lemma hashtable_mode_nonempty :
  forall l x,
    Forall exact_cell (filter notna l) -> In x (filter notna l) ->
    hashtable_mode l <> [].
Proof.
  intros l x Hl Hx.
  set (vals := filter notna l) in *.
  set (g := fun k0 => count_eq k0 vals).
  destruct (max_of_counts g (unique vals)) as [Hle Hex].
  destruct Hex as [k0 [Hk0 E0]].
  { intro E. assert (In x (unique vals)) by now apply In_unique.
    rewrite E in H. contradiction. }
  assert (Hmode : In k0 (hashtable_mode l)).
  { apply hashtable_mode_spec; [exact Hl |]. fold vals. split.
    - now apply (proj1 (In_unique vals k0 Hl)).
    - intros k' Hk'. fold (g k') (g k0). rewrite E0. apply Hle.
      now apply In_unique. }
  intro E. rewrite E in Hmode. contradiction.
Qed.

Lemma count_eq_notna :
  forall x l, isna x = false -> count_eq x (filter notna l) = count_eq x l.
Proof.
  intros x l Hx. unfold count_eq. induction l as [|y r IH]; simpl; [reflexivity |].
  unfold notna at 1. destruct (isna y) eqn:Ey; simpl.
  - destruct y; try discriminate. rewrite cell_eqb_NA_r, Hx. exact IH.
  - destruct (cell_eqb x y); simpl; now rewrite IH.
Qed.

End Mode.

(** Sorting the modes of a column of one kind [K] of cells that Python
    orders totally. *)
Section SortKind.

Variable K : cell -> Prop.
Hypothesis K_exact : forall x, K x -> exact_cell x.
Hypothesis K_notna : forall x, K x -> isna x = false.
Hypothesis K_compare : forall x y, K x -> K y -> cell_leb x y <> None.
Hypothesis K_refl : forall x, K x -> cell_le x x.
Hypothesis K_total :
  forall x y, K x -> K y -> cell_leb x y = Some false -> cell_le y x.
Hypothesis K_trans :
  forall x y z, K x -> K y -> K z -> cell_le x y -> cell_le y z -> cell_le x z.

Lemma insert_cell_sorted :
  forall x l,
    K x -> Forall K l -> StronglySorted cell_le l ->
    exists l',
      insert_cell x l = Some l' /\
      StronglySorted cell_le l' /\
      (forall y, In y l' <-> y = x \/ In y l).
Proof.
  intros x l Hx; induction l as [|y r IH]; intros Hl Hs.
  - exists [x]. split; [reflexivity |]. split.
    + constructor; constructor.
    + intro y. simpl. intuition congruence.
  - inversion Hl as [|? ? Hy Hr]; subst.
    inversion Hs as [|? ? Hsr Hyr]; subst.
    cbn [insert_cell].
    destruct (cell_leb x y) as [[|]|] eqn:Exy.
    + eexists. split; [reflexivity |]. split.
      * constructor; [exact Hs |]. constructor; [exact Exy |].
        rewrite Forall_forall in *. intros z Hz.
        apply (K_trans x y z); auto.
      * intro z. simpl. intuition congruence.
    + destruct (IH Hr Hsr) as [r' [Er' [Hsr' Hin']]].
      rewrite Er'. eexists. split; [reflexivity |]. split.
      * constructor; [exact Hsr' |].
        rewrite Forall_forall in *. intros z Hz. apply Hin' in Hz.
        destruct Hz as [->|Hz]; [| now apply Hyr].
        now apply K_total.
      * intro z. simpl. rewrite Hin'. tauto.
    + exfalso. now apply (K_compare x y).
Qed.

Lemma sort_cells_sorted :
  forall l,
    Forall K l ->
    exists l',
      sort_cells l = Some l' /\
      StronglySorted cell_le l' /\
      (forall y, In y l' <-> In y l).
Proof.
  induction l as [|x r IH]; intro Hl.
  - exists []. split; [reflexivity |]. split; [constructor | tauto].
  - inversion Hl as [|? ? Hx Hr]; subst.
    destruct (IH Hr) as [r' [Er' [Hs' Hin']]].
    assert (Hr' : Forall K r').
    { rewrite Forall_forall in *. intros y Hy. apply Hr. now apply Hin'. }
    destruct (insert_cell_sorted x r' Hx Hr' Hs') as [l' [El' [Hsl' Hinl']]].
    exists l'. cbn [sort_cells]. rewrite Er'. split; [exact El' |].
    split; [exact Hsl' |]. intro y. rewrite Hinl'. simpl. rewrite Hin'.
    intuition congruence.
Qed.

Lemma cells_of_notna :
  forall l, cells_of K l -> Forall K (filter notna l).
Proof.
  intros l H. apply Forall_forall. intros x Hx. apply filter_In in Hx.
  destruct Hx as [Hin Hna]. unfold cells_of in H. rewrite Forall_forall in H.
  destruct (H x Hin) as [E|E]; [| exact E].
  unfold notna in Hna. rewrite E in Hna. discriminate.
Qed.

(** On a column of kind [K] with a value, [mode[0]] is a most frequent
    value and the smallest of the most frequent ones. *)
Lemma fill_mode_smallest :
  forall s,
    cells_of K (values s) ->
    (exists v, In v (values s) /\ isna v = false) ->
    exists m,
      In m (values s) /\ isna m = false /\
      (forall v, In v (values s) -> isna v = false ->
                 count_eq v (values s) <= count_eq m (values s) /\
                 (count_eq v (values s) = count_eq m (values s) -> cell_le m v)) /\
      fill_mode s = series_fillna s m.
Proof.
  intros s Hkind [v0 [Hv0 Hv0na]].
  set (l := values s) in *.
  pose proof (cells_of_notna l Hkind) as Hvals.
  assert (Hexact : Forall exact_cell (filter notna l)).
  { eapply Forall_impl; [| exact Hvals]. exact K_exact. }
  assert (Hv0' : In v0 (filter notna l)).
  { apply filter_In. split; [exact Hv0 |]. unfold notna. now rewrite Hv0na. }
  assert (Hmodes : Forall K (hashtable_mode l)).
  { apply Forall_forall. intros k Hk. apply hashtable_mode_spec in Hk; [| exact Hexact].
    rewrite Forall_forall in Hvals. apply Hvals. apply Hk. }
  destruct (sort_cells_sorted _ Hmodes) as [sorted [Esort [Hsorted Hsame]]].
  destruct sorted as [|m rest].
  { exfalso. pose proof (hashtable_mode_nonempty l _ Hexact Hv0') as Hne.
    destruct (hashtable_mode l) as [|k t]; [congruence |].
    apply (proj2 (Hsame k)). now left. }
  assert (Hm : In m (hashtable_mode l)) by (apply Hsame; now left).
  assert (HmK : K m) by (rewrite Forall_forall in Hmodes; auto).
  apply hashtable_mode_spec in Hm; [| exact Hexact].
  destruct Hm as [Hmin Hmmax].
  assert (Hcount : forall v, isna v = false ->
                             count_eq v (filter notna l) = count_eq v l)
    by (intros v Hv; now apply count_eq_notna).
  exists m. split; [apply filter_In in Hmin; tauto |].
  split; [now apply K_notna |]. split.
  - intros v Hv Hvna.
    assert (Hvin : In v (filter notna l)).
    { apply filter_In. split; [exact Hv |]. unfold notna. now rewrite Hvna. }
    rewrite <- (Hcount v Hvna), <- (Hcount m (K_notna m HmK)). split.
    + now apply Hmmax.
    + intro Etie.
      assert (Hvmode : In v (hashtable_mode l)).
      { apply hashtable_mode_spec; [exact Hexact |]. split; [exact Hvin |].
        intros k' Hk'. rewrite Etie. now apply Hmmax. }
      apply Hsame in Hvmode. destruct Hvmode as [<-|Hrest].
      * now apply K_refl.
      * inversion Hsorted as [|? ? _ Hall]; subst.
        rewrite Forall_forall in Hall. now apply Hall.
  - unfold fill_mode, series_mode. fold l. rewrite Esort. reflexivity.
Qed.

End SortKind.

Section TextAndBooleans.

Lemma is_text_notna : forall x, is_text x -> isna x = false.
Proof. intros [] H; try contradiction; reflexivity. Qed.

Lemma is_bool_notna : forall x, is_bool x -> isna x = false.
Proof. intros [] H; try contradiction; reflexivity. Qed.

Lemma is_bool_exact : forall x, is_bool x -> exact_cell x.
Proof. intros [] H; try contradiction; exact I. Qed.

(** Text and booleans are the two kinds of cells a non-numeric column
    holds; within each kind the modes sort. *)
Lemma fill_mode_text_or_bool :
  forall s,
    text_cells (values s) \/ bool_cells (values s) ->
    (exists v, In v (values s) /\ isna v = false) ->
    exists m,
      In m (values s) /\ isna m = false /\
      (forall v, In v (values s) -> isna v = false ->
                 count_eq v (values s) <= count_eq m (values s) /\
                 (count_eq v (values s) = count_eq m (values s) -> cell_le m v)) /\
      fill_mode s = series_fillna s m.
Proof.
  intros s [Ht|Hb] Hv.
  - apply (fill_mode_smallest is_text); auto using is_text_exact, is_text_notna.
    + intros [] [] Hx Hy; try contradiction; discriminate.
    + intros [] Hx; try contradiction. unfold cell_le. simpl. f_equal.
      destruct (String.leb_total s0 s0); assumption.
    + intros [] [] Hx Hy; try contradiction. unfold cell_le. simpl.
      intro E. injection E as E. f_equal. now apply string_leb_false.
    + intros [] [] [] Hx Hy Hz; try contradiction. unfold cell_le. simpl.
      intros E1 E2. injection E1 as E1. injection E2 as E2. f_equal.
      eapply string_leb_trans; eauto.
  - apply (fill_mode_smallest is_bool); auto using is_bool_exact, is_bool_notna.
    + intros [] [] Hx Hy; try contradiction; discriminate.
    + intros [] Hx; try contradiction. unfold cell_le. simpl. now destruct b.
    + intros [] [] Hx Hy; try contradiction. unfold cell_le. simpl.
      destruct b, b0; simpl; congruence.
    + intros [] [] [] Hx Hy Hz; try contradiction. unfold cell_le. simpl.
      destruct b, b0, b1; simpl; congruence.
Qed.

Lemma filter_notna_all_missing :
  forall l, Forall (fun x => isna x = true) l -> filter notna l = [].
Proof.
  intros l H; induction H as [|x r Hx Hr IH]; simpl; [reflexivity |].
  unfold notna at 1. now rewrite Hx.
Qed.

Lemma fill_mode_all_missing :
  forall s, Forall (fun x => isna x = true) (values s) -> fill_mode s = s.
Proof.
  intros s H. unfold fill_mode, series_mode, hashtable_mode.
  rewrite (filter_notna_all_missing _ H). reflexivity.
Qed.

Lemma fill_mode_none_missing :
  forall s, Forall (fun x => isna x = false) (values s) -> fill_mode s = s.
Proof.
  intros s H. unfold fill_mode. destruct (series_mode s); [reflexivity |].
  now apply fillna_all_present.
Qed.

Lemma fill_puts_value :
  forall (P : cell -> bool) v l,
    P v = true ->
    existsb isna l = true ->
    existsb P (map (fun x => if isna x then v else x) l) = true.
Proof.
  intros P v l Hv. induction l as [|c r IH]; simpl; [discriminate |].
  destruct (isna c); simpl; intro H.
  - now rewrite Hv.
  - rewrite (IH H). apply orb_true_r.
Qed.

Lemma fill_keeps_kind :
  forall (P : cell -> bool) v l,
    P v = true ->
    Forall (fun x => isna x = true \/ P x = true) l ->
    forallb P (map (fun x => if isna x then v else x) l) = true.
Proof.
  intros P v l Hv H. induction H as [|c r Hc Hr IH]; simpl; [reflexivity |].
  rewrite IH, andb_true_r.
  destruct (isna c) eqn:E; [exact Hv |]. destruct Hc; congruence.
Qed.

Lemma booleans_hold_no_text :
  forall l, forallb is_boolean l = true -> existsb is_str l = false.
Proof.
  induction l as [|c r IH]; simpl; [reflexivity |].
  intro H. apply andb_true_iff in H. destruct H as [Hc Hr].
  rewrite (IH Hr). destruct c; simpl in *; congruence.
Qed.

Lemma convert_without_integers :
  forall l, Forall (fun c => to_float64 c = c) l -> snd (convert l) = l.
Proof.
  intros l H. destruct (convert_values l) as [E|E]; rewrite E; [reflexivity |].
  clear E. induction H as [|c r Hc Hr IH]; simpl; [reflexivity |].
  now rewrite Hc, IH.
Qed.

(** Filling with a string leaves the dtype as it is: the converted cells
    hold a string. *)
Lemma fillna_text_dtype :
  forall s m, is_text m -> s_dtype (series_fillna s m) = s_dtype s.
Proof.
  intros [d l] m Hm. unfold series_fillna. simpl.
  destruct (existsb isna l) eqn:E; [| reflexivity].
  destruct d; try reflexivity.
  unfold convert. rewrite fill_puts_value; [reflexivity | | exact E].
  destruct m; try contradiction; reflexivity.
Qed.

(** Filling the missing cells of an object column of booleans with a
    boolean leaves booleans only: the column becomes a bool column. *)
Lemma fillna_bool_dtype :
  forall s m,
    s_dtype s = object ->
    bool_cells (values s) ->
    is_bool m ->
    existsb isna (values s) = true ->
    s_dtype (series_fillna s m) = bool_.
Proof.
  intros [d l] m Hd Hl Hm E. simpl in *. subst d.
  unfold series_fillna. simpl. rewrite E.
  assert (Hb : is_boolean m = true) by (destruct m; try contradiction; reflexivity).
  assert (Hall : forallb is_boolean (map (fun x => if isna x then m else x) l) = true).
  { apply fill_keeps_kind; [exact Hb |].
    eapply Forall_impl; [| exact Hl]. intros c [Hc|Hc]; [now left | right].
    destruct c; try contradiction; reflexivity. }
  unfold convert. rewrite (booleans_hold_no_text _ Hall).
  rewrite (fill_puts_value is_boolean m l Hb E), Hall. reflexivity.
Qed.

(** In a column of text or of booleans, filling changes the missing cells
    and no other. *)
Lemma fillna_kind_values :
  forall s m,
    text_cells (values s) \/ bool_cells (values s) ->
    In m (values s) -> isna m = false ->
    values (series_fillna s m) =
    map (fun x => if isna x then m else x) (values s).
Proof.
  intros [d l] m Hkind Hin Hm. simpl in *.
  unfold series_fillna. simpl.
  destruct (existsb isna l) eqn:E.
  2:{ simpl. apply none_missing in E. now rewrite fill_none_missing. }
  destruct d; try reflexivity.
  assert (Hl : Forall (fun c => to_float64 c = c) l).
  { destruct Hkind as [H|H]; (eapply Forall_impl; [| exact H]);
      intros c [Hc|Hc]; destruct c; try contradiction; try discriminate; reflexivity. }
  assert (Hf : Forall (fun c => to_float64 c = c)
                      (map (fun x => if isna x then m else x) l)).
  { apply Forall_forall. intros c Hc. apply in_map_iff in Hc.
    destruct Hc as [x [<- Hx]]. rewrite Forall_forall in Hl.
    destruct (isna x); now apply Hl. }
  pose proof (convert_without_integers _ Hf) as Hc.
  destruct (convert _) as [d' l']. simpl in *. exact Hc.
Qed.

Lemma missing_or_present :
  forall l,
    Forall (fun x => isna x = true) l \/ exists v, In v l /\ isna v = false.
Proof.
  induction l as [|c r [IH|[v [Hv Hna]]]].
  - left. constructor.
  - destruct (isna c) eqn:E.
    + left. now constructor.
    + right. exists c. split; [now left | exact E].
  - right. exists v. split; [now right | exact Hna].
Qed.

End TextAndBooleans.

(** C3, as the code has it.  With mode filling selected, a numeric column
    passes the step unchanged, and so does a non-numeric column whose cells
    are all missing or none missing.  In a column of text (or of booleans)
    holding a value, every missing cell is replaced by one value of the
    column that no other value outnumbers, and among several such values
    the one taken is the smallest in sort order: [mode()] returns the modes
    sorted, and [mode[0]] is their first.  A bool column and a column of
    text keep their dtype; an object column of booleans that had a missing
    cell and a value is a bool column once filled. *)
Theorem mode_fill_takes_smallest_most_frequent_value :
  forall (f : form) (df : DataFrame),
    fill_categorical_mode f = true ->
    exists df4 out,
      after_fill_numeric_mean f df = Ok df4 /\
      clean f df = Ok out /\
      index out = index df4 /\
      Forall2
        (fun c c' =>
           fst c' = fst c /\
           (is_number (s_dtype (snd c)) = true -> c' = c) /\
           (is_number (s_dtype (snd c)) = false ->
            let l := values (snd c) in
            (s_dtype (snd c) <> object -> s_dtype (snd c') = s_dtype (snd c)) /\
            (text_cells l -> s_dtype (snd c') = s_dtype (snd c)) /\
            (s_dtype (snd c) = object -> bool_cells l ->
             (exists v, In v l /\ isna v = false) ->
             (exists v, In v l /\ isna v = true) ->
             s_dtype (snd c') = bool_) /\
            (Forall (fun x => isna x = true) l -> snd c' = snd c) /\
            (Forall (fun x => isna x = false) l -> snd c' = snd c) /\
            (text_cells l \/ bool_cells l ->
             (exists v, In v l /\ isna v = false) ->
             exists m,
               In m l /\ isna m = false /\
               (forall v, In v l -> isna v = false ->
                          count_eq v l <= count_eq m l /\
                          (count_eq v l = count_eq m l -> cell_le m v)) /\
               values (snd c') = map (fun x => if isna x then m else x) l)))
        (columns df4) (columns out).
Proof.
  intros f df Hon.
  destruct (clean_stages f df) as [df1 [_ [_ [_ [E4 E5]]]]].
  eexists. eexists. split; [exact E4 |]. split; [exact E5 |].
  unfold step_fill_categorical_mode at 1 2. rewrite Hon. simpl.
  split; [reflexivity |].
  apply Forall2_map_right. intros [n s] _. simpl.
  destruct (is_number (s_dtype s)) eqn:En; simpl.
  - split; [reflexivity |]. split; [reflexivity | discriminate].
  - split; [reflexivity |]. split; [discriminate |]. intros _.
    split; [apply fill_mode_typed |].
    split.
    { intro Ht. destruct (missing_or_present (values s)) as [Hall|Hval].
      - now rewrite fill_mode_all_missing.
      - destruct (fill_mode_text_or_bool s (or_introl Ht) Hval)
          as [m [H1 [H2 [_ H4]]]].
        rewrite H4. apply fillna_text_dtype.
        unfold text_cells, cells_of in Ht. rewrite Forall_forall in Ht.
        destruct (Ht m H1) as [H|H]; [congruence | exact H]. }
    split.
    { intros Hobj Hb Hval [v [Hv Hna]].
      destruct (fill_mode_text_or_bool s (or_intror Hb) Hval)
        as [m [H1 [H2 [_ H4]]]].
      rewrite H4. apply fillna_bool_dtype; [exact Hobj | exact Hb | |].
      - unfold bool_cells, cells_of in Hb. rewrite Forall_forall in Hb.
        destruct (Hb m H1) as [H|H]; [congruence | exact H].
      - apply existsb_exists. now exists v. }
    split; [apply fill_mode_all_missing |].
    split; [apply fill_mode_none_missing |].
    intros Hkind Hval.
    destruct (fill_mode_text_or_bool s Hkind Hval) as [m [H1 [H2 [H3 H4]]]].
    exists m. rewrite H4. rewrite fillna_kind_values by assumption. auto.
Qed.

(** C3, counterexample.  In the text column [b, a, missing] both values
    occur once and ["b"] is met first, yet the missing cell is filled with
    ["a"]. *)
Lemma mode_fill_tie_is_not_first_encountered :
  exists s,
    columns tied_text_frame = [("t"%string, s)] /\
    hashtable_mode (values s) = [Str "b"; Str "a"] /\
    count_eq (Str "b") (values s) = count_eq (Str "a") (values s) /\
    clean only_fill_categorical_mode tied_text_frame =
    Ok (mkDataFrame [0; 1; 2]
          [("t"%string, mkSeries object [Str "b"; Str "a"; Str "a"])]).
Proof.
  eexists. split; [reflexivity |]. repeat split; reflexivity.
Qed.

(** In the object column [True, missing, False] both values occur once:
    the missing cell is filled with [False], the smaller of the two, and
    the column leaves the step as a bool column. *)
Lemma mode_fill_makes_booleans_a_bool_column :
  clean only_fill_categorical_mode answers_frame =
  Ok (mkDataFrame [0; 1; 2]
        [("ok"%string, mkSeries bool_ [Bool true; Bool false; Bool false])]).
Proof. reflexivity. Qed.

(** ** Shape of the profile and of the cleaned frame *)

Section Shape.

Lemma select_length_le :
  forall (A : Type) (mask : list bool) (l : list A),
    List.length (select mask l) <= List.length l.
Proof.
  intros A mask; induction mask as [|b m IH]; intros [|x r]; simpl; try lia.
  specialize (IH r). destruct b; simpl; lia.
Qed.

Lemma df_drop_duplicates_shape :
  forall df,
    len (df_drop_duplicates df) <= len df /\
    column_names (df_drop_duplicates df) = column_names df.
Proof.
  intro df. unfold df_drop_duplicates. destruct (empty df); [split; [lia | reflexivity] |].
  unfold len, column_names. simpl. split; [apply select_length_le |].
  rewrite map_map. reflexivity.
Qed.

End Shape.

(** The profile has one entry per column of the frame, in column order. *)
Theorem df_profile_one_entry_per_column :
  forall df : DataFrame, map column (df_profile df) = column_names df.
Proof.
  intro df. unfold df_profile, column_names. rewrite map_map. reflexivity.
Qed.

(** In a well-formed frame the missing cells and the non-missing cells of a
    column add up to the row count. *)
Theorem missing_and_present_make_row_count :
  forall (df : DataFrame) (col : string) (s : Series),
    wf_frame df ->
    In (col, s) (columns df) ->
    series_isna_sum s + series_count s = len df.
Proof.
  intros df col s [_ Hlen _] Hin. rewrite <- (Hlen col s Hin).
  unfold series_isna_sum, series_count, notna. apply filter_length.
Qed.

(** Cleaning never raises, and the cleaned frame has no more rows and no
    more columns than the frame it was given; its column names are among the
    given ones. *)
Theorem clean_never_raises_never_grows :
  forall (f : form) (df : DataFrame),
  exists out,
    clean f df = Ok out /\
    len out <= len df /\
    List.length (columns out) <= List.length (columns df) /\
    incl (column_names out) (column_names df).
Proof.
  intros f df.
  destruct (clean_stages f df) as [df1 [E1 [_ [_ [_ E5]]]]].
  eexists. split; [exact E5 |].
  rewrite step_drop_cols_filter in E1. injection E1 as <-.
  set (d1 := mkDataFrame (index df) (filter _ (columns df))).
  assert (H1 : len d1 = len df /\ incl (column_names d1) (column_names df)).
  { split; [reflexivity |]. unfold column_names, d1. simpl.
    intros n Hn. apply in_map_iff in Hn. destruct Hn as [c [<- Hc]].
    apply filter_In in Hc. apply in_map. tauto. }
  assert (H2 : len (step_drop_duplicates f d1) <= len d1 /\
               column_names (step_drop_duplicates f d1) = column_names d1).
  { unfold step_drop_duplicates. destruct (drop_duplicates f);
      [apply df_drop_duplicates_shape | split; [lia | reflexivity]]. }
  set (d2 := step_drop_duplicates f d1) in *.
  assert (H3 : len (step_drop_empty_cols f d2) = len d2 /\
               incl (column_names (step_drop_empty_cols f d2)) (column_names d2)).
  { unfold step_drop_empty_cols, df_dropna_columns.
    destruct (drop_empty_cols f); [| split; [reflexivity | apply incl_refl]].
    split; [reflexivity |]. unfold column_names. simpl.
    intros n Hn. apply in_map_iff in Hn. destruct Hn as [c [<- Hc]].
    apply filter_In in Hc. apply in_map. tauto. }
  set (d3 := step_drop_empty_cols f d2) in *.
  assert (H4 : len (step_fill_numeric_mean f d3) = len d3).
  { unfold step_fill_numeric_mean. destruct (fill_numeric_mean f); reflexivity. }
  assert (H5 : len (step_fill_categorical_mode f (step_fill_numeric_mean f d3))
               = len (step_fill_numeric_mean f d3)).
  { unfold step_fill_categorical_mode. destruct (fill_categorical_mode f); reflexivity. }
  assert (Hnames : incl (column_names
                           (step_fill_categorical_mode f (step_fill_numeric_mean f d3)))
                        (column_names df)).
  { rewrite step_fill_categorical_mode_names, step_fill_numeric_mean_names.
    destruct H1 as [_ H1], H2 as [_ H2], H3 as [_ H3]. rewrite H2 in H3.
    eapply incl_tran; eassumption. }
  split; [lia |]. split; [| exact Hnames].
  assert (Hcount : forall d, List.length (columns d) = List.length (column_names d))
    by (intro d; unfold column_names; now rewrite length_map).
  rewrite !Hcount, step_fill_categorical_mode_names, step_fill_numeric_mean_names.
  rewrite <- !Hcount.
  assert (L3 : List.length (columns d3) <= List.length (columns d2)).
  { unfold d3, step_drop_empty_cols, df_dropna_columns.
    destruct (drop_empty_cols f); [apply filter_length_le | lia]. }
  assert (L2 : List.length (columns d2) = List.length (columns d1)).
  { rewrite !Hcount. destruct H2 as [_ H2]. now rewrite H2. }
  assert (L1 : List.length (columns d1) <= List.length (columns df))
    by apply filter_length_le.
  lia.
Qed.

(** ** The properties at work on the example frames *)

Lemma sparse_frame_wf : wf_frame sparse_frame.
Proof.
  constructor.
  - repeat constructor; simpl; intuition discriminate.
  - intros n s H. simpl in H.
    destruct H as [E|[E|[E|[]]]]; injection E as <- <-; reflexivity.
  - intros n s H. simpl in H.
    destruct H as [E|[E|[E|[]]]]; injection E as <- <-;
      repeat constructor.
Qed.

Lemma scenario_frame_wf : wf_frame scenario_frame.
Proof.
  constructor.
  - repeat constructor; simpl; intuition discriminate.
  - intros n s H. simpl in H.
    destruct H as [E|[E|[]]]; injection E as <- <-; reflexivity.
  - intros n s H. simpl in H.
    destruct H as [E|[E|[]]]; injection E as <- <-; repeat constructor.
Qed.

(** C1 on [sparse_frame]: duplicate removal leaves four rows, so [x], with
    two values, is kept, and [s], with one, is dropped. *)
Lemma sparsity_threshold_after_deduplication_witness :
  drop_duplicates only_drop_duplicates_and_empty_cols = true /\
  drop_empty_cols only_drop_duplicates_and_empty_cols = true /\
  exists df1 out,
    step_drop_cols only_drop_duplicates_and_empty_cols sparse_frame = Ok df1 /\
    clean only_drop_duplicates_and_empty_cols sparse_frame = Ok out /\
    column_names out =
      map fst (filter (fun c => negb (2 * series_count (snd c)
                                      <? len (df_drop_duplicates df1)))
                      (columns (df_drop_duplicates df1))).
Proof.
  split; [reflexivity |]. split; [reflexivity |].
  apply (sparsity_threshold_after_deduplication
           only_drop_duplicates_and_empty_cols sparse_frame); reflexivity.
Defined.

(** C2 on [sparse_frame]. *)
Lemma sparse_column_threshold_is_strict_witness :
  wf_frame sparse_frame /\
  drop_empty_cols only_drop_empty_cols = true /\
  exists df2 out,
    after_drop_duplicates only_drop_empty_cols sparse_frame = Ok df2 /\
    clean only_drop_empty_cols sparse_frame = Ok out /\
    forall n s,
      In (n, s) (columns df2) ->
      (In n (column_names out) <-> len df2 <= 2 * series_count s) /\
      (0 < len df2 -> 10 * series_isna_sum s = 6 * len df2 ->
       ~ In n (column_names out)) /\
      (2 * series_isna_sum s = len df2 -> In n (column_names out)).
Proof.
  split; [exact sparse_frame_wf |]. split; [reflexivity |].
  apply (sparse_column_threshold_is_strict only_drop_empty_cols sparse_frame);
    [exact sparse_frame_wf | reflexivity].
Defined.

(** C3 on [tied_text_frame]. *)
Lemma mode_fill_takes_smallest_most_frequent_value_witness :
  fill_categorical_mode only_fill_categorical_mode = true /\
  exists df4 out,
    after_fill_numeric_mean only_fill_categorical_mode tied_text_frame = Ok df4 /\
    clean only_fill_categorical_mode tied_text_frame = Ok out /\
    index out = index df4 /\
    Forall2
      (fun c c' =>
         fst c' = fst c /\
         (is_number (s_dtype (snd c)) = true -> c' = c) /\
         (is_number (s_dtype (snd c)) = false ->
          let l := values (snd c) in
          (s_dtype (snd c) <> object -> s_dtype (snd c') = s_dtype (snd c)) /\
          (text_cells l -> s_dtype (snd c') = s_dtype (snd c)) /\
          (s_dtype (snd c) = object -> bool_cells l ->
           (exists v, In v l /\ isna v = false) ->
           (exists v, In v l /\ isna v = true) ->
           s_dtype (snd c') = bool_) /\
          (Forall (fun x => isna x = true) l -> snd c' = snd c) /\
          (Forall (fun x => isna x = false) l -> snd c' = snd c) /\
          (text_cells l \/ bool_cells l ->
           (exists v, In v l /\ isna v = false) ->
           exists m,
             In m l /\ isna m = false /\
             (forall v, In v l -> isna v = false ->
                        count_eq v l <= count_eq m l /\
                        (count_eq v l = count_eq m l -> cell_le m v)) /\
             values (snd c') = map (fun x => if isna x then m else x) l)))
      (columns df4) (columns out).
Proof.
  split; [reflexivity |].
  apply (mode_fill_takes_smallest_most_frequent_value
           only_fill_categorical_mode tied_text_frame); reflexivity.
Defined.

(** C4 on the [score] column of the scenario: one missing cell in four
    rows. *)
Lemma missing_pct_is_rounded_share_or_nan_witness :
  wf_frame scenario_frame /\
  In ("score"%string, mkSeries float64 [Float 10; NA; Float 10; Float 30])
     (columns scenario_frame) /\
  exists i,
    In i (df_profile scenario_frame) /\ column i = "score"%string /\
    missing i = 1 /\
    (0 < len scenario_frame ->
     missing_pct i =
     Np.round (Np.float_of_nat (missing i) / Np.float_of_nat (len scenario_frame) * 100)%float 2) /\
    (len scenario_frame = 0 -> PrimFloat.is_nan (missing_pct i) = true).
Proof.
  split; [exact scenario_frame_wf |].
  split; [simpl; tauto |].
  apply (missing_pct_is_rounded_share_or_nan scenario_frame "score"%string
           (mkSeries float64 [Float 10; NA; Float 10; Float 30]));
    [exact scenario_frame_wf | simpl; tauto].
Defined.

(** C6 on the scenario. *)
Lemma mean_fill_when_mean_is_a_number_witness :
  fill_numeric_mean only_fill_numeric_mean = true /\
  exists df3 out,
    after_drop_empty_cols only_fill_numeric_mean scenario_frame = Ok df3 /\
    clean only_fill_numeric_mean scenario_frame = Ok out /\
    index out = index df3 /\
    Forall2
      (fun c c' =>
         fst c' = fst c /\
         (is_number (s_dtype (snd c)) = true ->
          let m := series_mean (snd c) in
          s_dtype (snd c') = s_dtype (snd c) /\
          values (snd c') =
            map (fun x => if isna x then mk_float m else x) (values (snd c)) /\
          (PrimFloat.is_nan m = false ->
           Forall (fun x => isna x = false) (values (snd c'))) /\
          (PrimFloat.is_nan m = true -> snd c' = snd c) /\
          (series_count (snd c) = 0 -> snd c' = snd c)))
      (columns df3) (columns out).
Proof.
  split; [reflexivity |].
  apply (mean_fill_when_mean_is_a_number only_fill_numeric_mean scenario_frame);
    reflexivity.
Defined.

(** C8 on the column [s] of [sparse_frame], which has a single value. *)
Lemma std_of_short_numeric_column_is_missing_witness :
  In ("s"%string, mkSeries float64 [NA; NA; NA; NA; Float 3]) (columns sparse_frame) /\
  is_number float64 = true /\
  series_count (mkSeries float64 [NA; NA; NA; NA; Float 3]) < 2 /\
  exists i count mean std min q25 q50 q75 max,
    In i (df_profile sparse_frame) /\ column i = "s"%string /\
    desc i = Some (describe_numeric count mean std min q25 q50 q75 max) /\
    PrimFloat.is_nan std = true /\
    std <> 0%float.
Proof.
  split; [simpl; tauto |]. split; [reflexivity |]. split; [vm_compute; lia |].
  apply (std_of_short_numeric_column_is_missing sparse_frame "s"%string
           (mkSeries float64 [NA; NA; NA; NA; Float 3]));
    [simpl; tauto | reflexivity | vm_compute; lia].
Defined.

(** C10 on the column [x] of [sparse_frame]: three missing cells, two
    distinct values. *)
Lemma missing_cells_are_duplicates_of_each_other_witness :
  In ("x"%string, mkSeries float64 [Float 1; Float 2; NA; NA; NA]) (columns sparse_frame) /\
  series_isna_sum (mkSeries float64 [Float 1; Float 2; NA; NA; NA]) = 3 /\
  2 <= 3 /\
  distinct_cells (filter notna [Float 1; Float 2; NA; NA; NA]) /\
  exists i,
    In i (df_profile sparse_frame) /\ column i = "x"%string /\
    missing i = 3 /\ duplicates i = 3 - 1.
Proof.
  assert (Hd : distinct_cells (filter notna [Float 1; Float 2; NA; NA; NA])).
  { simpl. repeat constructor. }
  split; [simpl; tauto |]. split; [reflexivity |]. split; [lia |].
  split; [exact Hd |].
  apply (missing_cells_are_duplicates_of_each_other sparse_frame "x"%string
           (mkSeries float64 [Float 1; Float 2; NA; NA; NA]) 3);
    [simpl; tauto | reflexivity | lia | exact Hd].
Defined.

(** On [sparse_frame] the two row counts tell the columns apart: [x] has two
    values, which is half of the four rows left by duplicate removal and
    less than half of the five rows read, and it is kept. *)
Example sparse_frame_threshold_on_four_rows :
  clean only_drop_duplicates_and_empty_cols sparse_frame =
  Ok (mkDataFrame [0; 1; 2; 4]
        [("a"%string, mkSeries int64 [Int 1; Int 1; Int 1; Int 2]);
         ("x"%string, mkSeries float64 [Float 1; Float 2; NA; NA])]) /\
  len sparse_frame = 5 /\
  2 * series_count (mkSeries float64 [Float 1; Float 2; NA; NA; NA]) < len sparse_frame /\
  column_names (step_drop_empty_cols only_drop_empty_cols sparse_frame) = ["a"%string].
Proof. repeat split; try reflexivity. vm_compute. lia. Qed.

(** The scenario of the specification: the profile of [score], and mean
    filling; the mean 16.666666666666668 is written in hexadecimal. *)
Example scenario_profile_of_score :
  map (fun i => (column i, missing i, missing_pct i, unique_ i, duplicates i))
      (df_profile scenario_frame) =
  [("id"%string, 0, 0%float, 4, 0); ("score"%string, 1, 25%float, 3, 1)] /\
  series_mean (mkSeries float64 [Float 10; NA; Float 10; Float 30])
  = 0x1.0aaaaaaaaaaabp+4%float /\
  clean only_fill_numeric_mean scenario_frame =
  Ok (mkDataFrame [0; 1; 2; 3]
        [("id"%string, mkSeries int64 [Int 1; Int 2; Int 3; Int 4]);
         ("score"%string,
          mkSeries float64 [Float 10; Float 0x1.0aaaaaaaaaaabp+4; Float 10; Float 30])]).
Proof. repeat split; reflexivity. Qed.

(** Rows and cells of the scenario add up. *)
Lemma missing_and_present_make_row_count_witness :
  wf_frame scenario_frame /\
  In ("score"%string, mkSeries float64 [Float 10; NA; Float 10; Float 30])
     (columns scenario_frame) /\
  series_isna_sum (mkSeries float64 [Float 10; NA; Float 10; Float 30])
  + series_count (mkSeries float64 [Float 10; NA; Float 10; Float 30])
  = len scenario_frame.
Proof.
  split; [exact scenario_frame_wf |]. split; [simpl; tauto |].
  apply (missing_and_present_make_row_count scenario_frame "score"%string);
    [exact scenario_frame_wf | simpl; tauto].
Defined.

(** ** The routes: snapshots and messages *)

Section FileStore.

Context {content : Type}.

Lemma lookup_remove_same :
  forall (path : string) (fs : store content), lookup path (remove path fs) = None.
Proof.
  intros path fs; induction fs as [|[p c] r IH]; simpl; [reflexivity |].
  destruct (String.eqb p path) eqn:E; simpl; [exact IH |].
  now rewrite E.
Qed.

Lemma lookup_remove_other :
  forall (path q : string) (fs : store content),
    q <> path -> lookup q (remove path fs) = lookup q fs.
Proof.
  intros path q fs Hq; induction fs as [|[p c] r IH]; simpl; [reflexivity |].
  destruct (String.eqb_spec p path) as [->|Hp]; simpl.
  - destruct (String.eqb_spec path q) as [<-|_]; [congruence | exact IH].
  - now rewrite IH.
Qed.

Lemma lookup_write_same :
  forall (path : string) (c : content) (fs : store content),
    lookup path (write path c fs) = Some c.
Proof. intros. unfold write. simpl. now rewrite String.eqb_refl. Qed.

Lemma lookup_write_other :
  forall (path q : string) (c : content) (fs : store content),
    q <> path -> lookup q (write path c fs) = lookup q fs.
Proof.
  intros path q c fs Hq. unfold write. simpl.
  destruct (String.eqb_spec path q) as [<-|_]; [congruence |].
  now apply lookup_remove_other.
Qed.

End FileStore.

Section RouteFacts.

Variable E : externals.

Lemma join_not_empty : forall dir name, String.eqb (join dir name) "" = false.
Proof. intros [|a d] name; reflexivity. Qed.

Lemma clean_total : forall f df, exists cleaned, clean f df = Ok cleaned.
Proof.
  intros f df. destruct (clean_stages f df) as [df1 [_ [_ [_ [_ E5]]]]].
  eexists. exact E5.
Qed.

(** The clean route on a snapshot that is there and parses. *)
Lemma clean_route_on_snapshot :
  forall uuid path f (st : state E) text df,
    String.eqb path "" = false ->
    lookup path (files st) = Some text ->
    read_csv E text = Parsed df ->
    exists cleaned,
      clean f df = Ok cleaned /\
      Routes.clean uuid (Some path) f st =
      (SendFile (join (tempdir E) ("cleaned_" ++ uuid ++ ".csv")) "cleaned_data.csv"
                (to_csv E cleaned),
       mkState (write (join (tempdir E) ("cleaned_" ++ uuid ++ ".csv"))
                      (to_csv E cleaned) (remove path (files st)))
               (flashes st)).
Proof.
  intros uuid path f st text df Hne Hfile Hread.
  destruct (clean_total f df) as [cleaned Hc]. exists cleaned. split; [exact Hc |].
  unfold Routes.clean. rewrite Hne, Hfile, Hread, Hc. reflexivity.
Qed.

Lemma clean_route_expired :
  forall uuid path f (st : state E),
    lookup path (files st) = None ->
    Routes.clean uuid (Some path) f st =
    (IndexPage (hd_error (flashes st ++ [SessionExpired])), mkState (files st) []).
Proof.
  intros uuid path f st Hnone. unfold Routes.clean. rewrite Hnone.
  destruct (String.eqb path ""); reflexivity.
Qed.

End RouteFacts.

(** A snapshot serves one cleaning request.  When the file named by the
    form exists and parses, and the name drawn for the cleaned file is not
    that of the snapshot, the request is answered with the cleaned file and
    the snapshot is removed; a second request naming it is answered with
    the index page, and no file is touched.  That page shows the oldest
    message of the session, the session-expired message coming last: it
    shows the session-expired message when no message was pending. *)
Theorem snapshot_is_consumed_once :
  forall (E : externals) (uuid uuid' path : string) (f f' : form)
         (st : state E) (text : csv E) (df : DataFrame),
    path <> ""%string ->
    lookup path (files st) = Some text ->
    read_csv E text = Parsed df ->
    join (tempdir E) ("cleaned_" ++ uuid ++ ".csv") <> path ->
    exists cleaned st1,
      clean f df = Ok cleaned /\
      Routes.clean uuid (Some path) f st =
        (SendFile (join (tempdir E) ("cleaned_" ++ uuid ++ ".csv")) "cleaned_data.csv"
                  (to_csv E cleaned), st1) /\
      lookup path (files st1) = None /\
      Routes.clean uuid' (Some path) f' st1 =
        (IndexPage (hd_error (flashes st ++ [SessionExpired])), mkState (files st1) []) /\
      (flashes st = [] ->
       Routes.clean uuid' (Some path) f' st1 =
         (IndexPage (Some SessionExpired), mkState (files st1) [])).
Proof.
  intros E uuid uuid' path f f' st text df Hne Hfile Hread Hout.
  assert (Hne' : String.eqb path "" = false) by now apply String.eqb_neq.
  destruct (clean_route_on_snapshot E uuid path f st text df Hne' Hfile Hread)
    as [cleaned [Hc Hroute]].
  exists cleaned. eexists. split; [exact Hc |]. split; [exact Hroute |].
  assert (Hgone : lookup path
                    (write (join (tempdir E) ("cleaned_" ++ uuid ++ ".csv"))
                           (to_csv E cleaned) (remove path (files st))) = None).
  { rewrite lookup_write_other by congruence. apply lookup_remove_same. }
  split; [exact Hgone |].
  split; [now rewrite clean_route_expired |].
  intro Hnone. rewrite clean_route_expired by exact Hgone.
  cbn [flashes]. now rewrite Hnone.
Qed.

(** What an upload answered with the profile page did. *)
Lemma upload_answered :
  forall (E : externals) uuid file (st st1 : state E) table hist_imgs corr_img tempname cols,
    Routes.upload uuid file st =
      (ProfilePage table hist_imgs corr_img tempname cols, st1) ->
    exists filename stream df,
      file = Some (filename, stream) /\
      read_csv E stream = Parsed df /\
      tempname = join (tempdir E) (uuid ++ ".csv") /\
      cols = column_names df /\
      files st1 = write tempname (to_csv E df) (files st) /\
      flashes st1 =
        flashes st ++ (if (2000000 <? Z.of_nat (len df))%Z then [LargeFile (len df)] else []).
Proof.
  intros E uuid file st st1 table hist_imgs corr_img tempname cols H.
  unfold Routes.upload in H.
  destruct file as [[filename stream]|]; [| discriminate].
  destruct (String.eqb filename ""); [discriminate |].
  destruct (read_csv E stream) as [df|e] eqn:Hread; [| discriminate].
  destruct (all_drawn _) as [imgs|]; [| discriminate].
  exists filename, stream, df. split; [reflexivity |]. split; [exact Hread |].
  destruct (correlation_heatmap _ _ df) as [[img|]|];
    try discriminate; injection H as <- <- <- <- <- <-;
    (split; [reflexivity |]); (split; [reflexivity |]);
    destruct (2000000 <? Z.of_nat (len df))%Z; simpl;
    (split; [reflexivity |]); try reflexivity; now rewrite app_nil_r.
Qed.

(** Upload, then clean.  When an upload is answered with the profile page,
    posting that page's snapshot name to the clean route cleans the frame
    read back from the written snapshot (not the frame parsed from the
    upload), removes the snapshot, leaves the cleaned file behind and
    touches no other file. *)
Theorem upload_then_clean_reads_the_snapshot_back :
  forall (E : externals) (uuid uuid' filename : string) (stream : csv E) (f : form)
         (st st1 : state E) (df df' : DataFrame)
         table hist_imgs corr_img tempname cols,
    read_csv E stream = Parsed df ->
    Routes.upload uuid (Some (filename, stream)) st =
      (ProfilePage table hist_imgs corr_img tempname cols, st1) ->
    read_csv E (to_csv E df) = Parsed df' ->
    join (tempdir E) ("cleaned_" ++ uuid' ++ ".csv") <> tempname ->
    exists cleaned st2,
      cols = column_names df /\
      clean f df' = Ok cleaned /\
      Routes.clean uuid' (Some tempname) f st1 =
        (SendFile (join (tempdir E) ("cleaned_" ++ uuid' ++ ".csv")) "cleaned_data.csv"
                  (to_csv E cleaned), st2) /\
      lookup tempname (files st2) = None /\
      lookup (join (tempdir E) ("cleaned_" ++ uuid' ++ ".csv")) (files st2)
        = Some (to_csv E cleaned) /\
      forall q,
        q <> tempname ->
        q <> join (tempdir E) ("cleaned_" ++ uuid' ++ ".csv") ->
        lookup q (files st2) = lookup q (files st).
Proof.
  intros E uuid uuid' filename stream f st st1 df df' table hist_imgs corr_img
         tempname cols Hread Hup Hback Hpaths.
  destruct (upload_answered E _ _ _ _ _ _ _ _ _ Hup)
    as [filename0 [stream0 [df0 [Hfile [Hread0 [Htemp [Hcols [Hfiles _]]]]]]]].
  injection Hfile as <- <-. rewrite Hread in Hread0. injection Hread0 as <-.
  set (out := join (tempdir E) ("cleaned_" ++ uuid' ++ ".csv")) in *.
  destruct (clean_route_on_snapshot E uuid' tempname f st1 (to_csv E df) df')
    as [cleaned [Hc Hroute]].
  { rewrite Htemp. apply join_not_empty. }
  { rewrite Hfiles. apply lookup_write_same. }
  { exact Hback. }
  fold out in Hroute.
  exists cleaned. eexists.
  split; [exact Hcols |]. split; [exact Hc |]. split; [exact Hroute |].
  cbn [files]. rewrite Hfiles. split; [| split].
  - rewrite lookup_write_other by congruence. apply lookup_remove_same.
  - apply lookup_write_same.
  - intros q Hq1 Hq2.
    rewrite lookup_write_other by exact Hq2.
    rewrite lookup_remove_other by exact Hq1.
    now apply lookup_write_other.
Qed.

(** A request that is not answered with the profile page or the cleaned
    file (index page, or failure) leaves every file as it was: in
    particular a snapshot that does not parse is not removed. *)
Theorem unanswered_request_leaves_files_untouched :
  forall (E : externals) (req : request E) (st : state E),
    succeeded (fst (handle req st)) = false ->
    files (snd (handle req st)) = files st.
Proof.
  intros E [|uuid file|uuid temp_csv f] st; simpl.
  - reflexivity.
  - unfold Routes.upload. destruct file as [[filename stream]|]; [| reflexivity].
    destruct (String.eqb filename ""); [reflexivity |].
    destruct (read_csv E stream) as [df|e]; [| reflexivity].
    destruct (all_drawn _) as [imgs|]; [| reflexivity].
    destruct (correlation_heatmap _ _ df) as [[img|]|];
      try reflexivity; simpl; discriminate.
  - unfold Routes.clean. destruct temp_csv as [path|]; [| reflexivity].
    destruct (String.eqb path ""); [reflexivity |].
    destruct (lookup path (files st)) as [text|]; [| reflexivity].
    destruct (read_csv E text) as [df|e]; [| reflexivity].
    destruct (clean_total f df) as [cleaned Hc]. rewrite Hc. simpl. discriminate.
Qed.

(** No request writes or removes a file other than the snapshot it names
    and the files named after the identifier drawn for it. *)
Theorem request_changes_only_the_paths_it_names :
  forall (E : externals) (req : request E) (st : state E) (q : string),
    ~ In q (touched req) ->
    lookup q (files (snd (handle req st))) = lookup q (files st).
Proof.
  intros E [|uuid file|uuid temp_csv f] st q Hq; cbn [handle touched] in *.
  - reflexivity.
  - unfold Routes.upload. destruct file as [[filename stream]|]; [| reflexivity].
    destruct (String.eqb filename ""); [reflexivity |].
    destruct (read_csv E stream) as [df|e]; [| reflexivity].
    destruct (all_drawn _) as [imgs|]; [| reflexivity].
    destruct (correlation_heatmap _ _ df) as [[img|]|]; try reflexivity;
      cbn [snd files]; rewrite lookup_write_other by (cbn [In] in Hq; intuition congruence);
      destruct (2000000 <? Z.of_nat (len df))%Z; reflexivity.
  - unfold Routes.clean. destruct temp_csv as [path|]; [| reflexivity].
    destruct (String.eqb path ""); [reflexivity |].
    destruct (lookup path (files st)) as [text|]; [| reflexivity].
    destruct (read_csv E text) as [df|e]; [| reflexivity].
    cbn [In] in Hq.
    destruct (clean f df) as [cleaned|e]; cbn [snd files].
    + rewrite lookup_write_other by intuition congruence. apply lookup_remove_other. intuition congruence.
    + apply lookup_remove_other. intuition congruence.
Qed.

(** The large-file warning is flashed but the profile page does not show
    flashed messages: after an upload of more than 2,000,000 rows answered
    with the profile page (nothing pending before), the warning is what the
    next index page shows, whatever request produces it, in place of that
    request's own message. *)
Theorem large_file_warning_waits_for_the_next_index_page :
  forall (E : externals) (uuid filename : string) (stream : csv E)
         (st st1 : state E) (df : DataFrame)
         table hist_imgs corr_img tempname cols,
    read_csv E stream = Parsed df ->
    (2000000 < Z.of_nat (len df))%Z ->
    flashes st = [] ->
    Routes.upload uuid (Some (filename, stream)) st =
      (ProfilePage table hist_imgs corr_img tempname cols, st1) ->
    flashes st1 = [LargeFile (len df)] /\
    forall (req : request E) (m : option message),
      fst (handle req st1) = IndexPage m -> m = Some (LargeFile (len df)).
Proof.
  intros E uuid filename stream st st1 df table hist_imgs corr_img tempname cols
         Hread Hlarge Hnone Hup.
  destruct (upload_answered E _ _ _ _ _ _ _ _ _ Hup)
    as [filename0 [stream0 [df0 [Hfile [Hread0 [_ [_ [_ Hfl]]]]]]]].
  injection Hfile as <- <-. rewrite Hread in Hread0. injection Hread0 as <-.
  apply Z.ltb_lt in Hlarge. rewrite Hlarge, Hnone in Hfl. simpl in Hfl.
  split; [exact Hfl |].
  intros [|uuid' file|uuid' temp_csv f] m; cbn [handle].
  - unfold Routes.index, render_index. rewrite Hfl. simpl. congruence.
  - unfold Routes.upload. destruct file as [[filename' stream']|].
    + destruct (String.eqb filename' "");
        [unfold render_index, flash; rewrite Hfl; simpl; congruence |].
      destruct (read_csv E stream') as [df'|e];
        [| unfold render_index, flash; rewrite Hfl; simpl; congruence].
      destruct (all_drawn _) as [imgs|]; [| discriminate].
      destruct (correlation_heatmap _ _ df') as [[img|]|]; discriminate.
    + unfold render_index, flash. rewrite Hfl. simpl. congruence.
  - unfold Routes.clean. destruct temp_csv as [path|];
      [| unfold render_index, flash; rewrite Hfl; simpl; congruence].
    destruct (String.eqb path "");
      [unfold render_index, flash; rewrite Hfl; simpl; congruence |].
    destruct (lookup path (files st1)) as [text|];
      [| unfold render_index, flash; rewrite Hfl; simpl; congruence].
    destruct (read_csv E text) as [df'|e]; [| discriminate].
    destruct (clean f df'); discriminate.
Qed.

(** ** Counting first occurrences and duplicates *)

Section FirstOccurrences.

Context {A : Type} (eqb : A -> A -> bool).

Lemma duplicated_from_length :
  forall (l seen : list A), List.length (duplicated_from eqb seen l) = List.length l.
Proof.
  induction l as [|x r IH]; intros seen; simpl; [reflexivity |]. now rewrite IH.
Qed.

Lemma select_negb_length :
  forall (B : Type) (mask : list bool) (l : list B),
    List.length mask = List.length l ->
    List.length (select (map negb mask) l) + List.length (filter id mask)
    = List.length l.
Proof.
  intros B mask; induction mask as [|b m IH]; intros [|x r] H; simpl in *;
    try reflexivity; try discriminate.
  injection H as H. specialize (IH r H). destruct b; simpl; lia.
Qed.

Lemma existsb_false_incl :
  forall (p : A -> bool) (small big : list A),
    incl small big -> existsb p big = false -> existsb p small = false.
Proof.
  intros p small big Hincl Hbig. apply not_true_iff_false. intro H.
  apply existsb_exists in H. destruct H as [x [Hx Hp]].
  assert (existsb p big = true) by (apply existsb_exists; exists x; auto).
  congruence.
Qed.

(** Among the first occurrences none repeats an earlier one. *)
Lemma first_occurrences_not_duplicated :
  forall (l seen seen' : list A),
    incl seen' seen ->
    Forall (fun b => b = false)
           (duplicated_from eqb seen'
              (select (map negb (duplicated_from eqb seen l)) l)).
Proof.
  induction l as [|x r IH]; intros seen seen' Hincl.
  - constructor.
  - cbn [duplicated_from map select].
    destruct (existsb (eqb x) seen) eqn:Ex; cbn [negb].
    + apply IH. now apply incl_tl.
    + cbn [duplicated_from]. constructor.
      * now apply (existsb_false_incl _ seen' seen).
      * apply IH. intros y [<-|Hy]; [now left | right; now apply Hincl].
Qed.

End FirstOccurrences.

Section RowsOfSelection.

Lemma nth_tl :
  forall (l : list cell) (k : nat), nth (S k) l NA = nth k (tl l) NA.
Proof. intros [|x r] k; [destruct k |]; reflexivity. Qed.

Lemma rows_cons :
  forall df i idx,
    index df = i :: idx ->
    rows df = row df 0 :: rows (tail_frame df).
Proof.
  intros df i idx Hidx. unfold rows, len. rewrite Hidx. cbn [List.length seq map].
  f_equal. unfold tail_frame at 2. cbn [index]. rewrite Hidx. cbn [tl].
  rewrite <- seq_shift, map_map. apply map_ext. intro k.
  unfold row, tail_frame. cbn [columns]. rewrite map_map. apply map_ext.
  intro c. cbn [snd values]. apply nth_tl.
Qed.

Lemma rectangular_tail : forall df, rectangular df -> rectangular (tail_frame df).
Proof.
  intros df H c Hc. unfold tail_frame in Hc. cbn [columns] in Hc.
  apply in_map_iff in Hc. destruct Hc as [c0 [<- Hc0]]. cbn [snd values].
  specialize (H c0 Hc0). unfold len, tail_frame in *. cbn [index].
  destruct (values (snd c0)), (index df); simpl in *; lia.
Qed.

Lemma rows_select :
  forall mask df,
    rectangular df -> rows (df_select df mask) = select mask (rows df).
Proof.
  induction mask as [|b m IH]; intros df Hrect.
  - reflexivity.
  - destruct (index df) as [|i idx] eqn:Hidx.
    + unfold rows at 1 2, len, df_select. cbn [index]. rewrite Hidx. reflexivity.
    + rewrite (rows_cons df i idx Hidx). cbn [select].
      assert (Hcols : forall c, In c (columns df) ->
                 exists x r, values (snd c) = x :: r).
      { intros c Hc. specialize (Hrect c Hc). unfold len in Hrect. rewrite Hidx in Hrect.
        destruct (values (snd c)) as [|x r]; [discriminate | eauto]. }
      destruct b.
      * rewrite (rows_cons (df_select df (true :: m)) i (select m idx)).
        2:{ unfold df_select. cbn [index]. rewrite Hidx. reflexivity. }
        f_equal.
        -- unfold row, df_select. cbn [columns]. rewrite map_map.
           apply map_ext_in. intros c Hc. cbn [snd values].
           destruct (Hcols c Hc) as [x [r ->]]. reflexivity.
        -- rewrite <- IH by now apply rectangular_tail. f_equal.
           unfold tail_frame, df_select. cbn [index columns]. rewrite Hidx.
           cbn [select tl]. f_equal. rewrite !map_map. apply map_ext_in.
           intros c Hc. cbn [fst snd s_dtype values].
           destruct (Hcols c Hc) as [x [r ->]]. reflexivity.
      * rewrite <- IH by now apply rectangular_tail. f_equal.
        unfold tail_frame, df_select. cbn [index columns]. rewrite Hidx.
        cbn [select tl]. f_equal. rewrite !map_map. apply map_ext_in.
        intros c Hc. cbn [fst snd s_dtype values].
        destruct (Hcols c Hc) as [x [r ->]]. reflexivity.
Qed.

Lemma rows_length : forall df, List.length (rows df) = len df.
Proof. intro df. unfold rows. now rewrite length_map, length_seq. Qed.

End RowsOfSelection.

Section DropDuplicates.

Lemma select_all_kept :
  forall (B : Type) (flags : list bool) (l : list B),
    Forall (fun b => b = false) flags ->
    List.length flags = List.length l ->
    select (map negb flags) l = l.
Proof.
  intros B flags; induction flags as [|b m IH]; intros [|x r] Hall Hlen;
    simpl in *; try reflexivity; try discriminate.
  inversion Hall as [|? ? Hb Hm]; subst. injection Hlen as Hlen.
  simpl. f_equal. now apply IH.
Qed.

Lemma wf_rectangular : forall df, wf_frame df -> rectangular df.
Proof. intros df [_ Hlen _] [n s] Hc. exact (Hlen n s Hc). Qed.

Lemma rectangular_select :
  forall df mask, rectangular df -> rectangular (df_select df mask).
Proof.
  intros df mask H c Hc. unfold df_select in *. cbn [columns] in Hc.
  apply in_map_iff in Hc. destruct Hc as [c0 [<- Hc0]]. cbn [snd values].
  unfold len. cbn [index]. apply select_length. exact (H c0 Hc0).
Qed.

Lemma rectangular_drop_duplicates :
  forall df, rectangular df -> rectangular (df_drop_duplicates df).
Proof.
  intros df H. unfold df_drop_duplicates.
  destruct (empty df); [exact H | now apply rectangular_select].
Qed.

Lemma empty_false_index :
  forall df, columns df <> [] -> empty df = true -> index df = [].
Proof.
  intros [idx cols] Hc He. unfold empty in He. simpl in *.
  destruct idx; [reflexivity |]. destruct cols; [congruence | discriminate].
Qed.

(** What [drop_duplicates] leaves of a frame that has a column: no row
    equal to an earlier one, the flagged rows being the ones removed. *)
Lemma df_drop_duplicates_distinct :
  forall df,
    rectangular df ->
    columns df <> [] ->
    Forall (fun b => b = false) (df_duplicated (df_drop_duplicates df)) /\
    len (df_drop_duplicates df) + List.length (filter id (df_duplicated df)) = len df.
Proof.
  intros df Hrect Hcols. unfold df_drop_duplicates.
  destruct (empty df) eqn:He.
  - pose proof (empty_false_index df Hcols He) as Hidx.
    unfold df_duplicated, rows, len. rewrite Hidx. simpl. split; constructor.
  - split.
    + unfold df_duplicated at 1. rewrite rows_select by exact Hrect.
      unfold df_duplicated, duplicated. apply first_occurrences_not_duplicated.
      apply incl_refl.
    + unfold len at 1, df_select. cbn [index]. apply select_negb_length.
      unfold df_duplicated, duplicated.
      now rewrite duplicated_from_length, rows_length.
Qed.

Lemma df_select_all :
  forall df flags,
    rectangular df ->
    Forall (fun b => b = false) flags ->
    List.length flags = len df ->
    df_select df (map negb flags) = df.
Proof.
  intros [idx cols] flags Hrect Hall Hlen. unfold df_select, len in *. simpl in *.
  f_equal.
  - now apply select_all_kept.
  - rewrite <- (map_id cols) at 2. apply map_ext_in. intros [n [d v]] Hc. simpl.
    f_equal. f_equal. apply select_all_kept; [exact Hall |].
    rewrite Hlen. symmetry. exact (Hrect _ Hc).
Qed.

Lemma df_drop_duplicates_idempotent :
  forall df,
    rectangular df ->
    df_drop_duplicates (df_drop_duplicates df) = df_drop_duplicates df.
Proof.
  intros df Hrect.
  set (d := df_drop_duplicates df).
  assert (Hd : rectangular d) by now apply rectangular_drop_duplicates.
  unfold df_drop_duplicates at 1. destruct (empty d) eqn:He; [reflexivity |].
  assert (Hcols : columns d <> []).
  { intro E. unfold empty in He. rewrite E in He. destruct (index d); discriminate. }
  assert (Hcols0 : columns df <> []).
  { intro E. apply Hcols. unfold d, df_drop_duplicates.
    destruct (empty df); [exact E |]. unfold df_select. cbn [columns]. now rewrite E. }
  destruct (df_drop_duplicates_distinct df Hrect Hcols0) as [Hnone _].
  apply df_select_all; [exact Hd | exact Hnone |].
  unfold df_duplicated, duplicated. now rewrite duplicated_from_length, rows_length.
Qed.

Lemma In_firstn_nth :
  forall (B : Type) (l : list B) (i : nat) (y : B),
    In y (firstn i l) <-> exists j, j < i /\ nth_error l j = Some y.
Proof.
  intros B l; induction l as [|x r IH]; intros i y.
  - rewrite firstn_nil. split; [intros [] |].
    intros [j [_ H]]. destruct j; discriminate.
  - destruct i as [|k]; simpl.
    + split; [intros [] | intros [j [H _]]; lia].
    + rewrite IH. split.
      * intros [<-|[j [Hj Hy]]]; [exists 0; split; [lia | reflexivity] |].
        exists (S j). split; [lia | exact Hy].
      * intros [[|j] [Hj Hy]]; simpl in Hy.
        -- left. congruence.
        -- right. exists j. split; [lia | exact Hy].
Qed.

(** [duplicated(keep="first")] flags a position exactly when its value is
    equal to one at an earlier position, or to one seen before. *)
Lemma duplicated_from_nth :
  forall (B : Type) (eqb : B -> B -> bool) (l seen : list B) (i : nat) (x : B),
    nth_error l i = Some x ->
    exists b,
      nth_error (duplicated_from eqb seen l) i = Some b /\
      (b = true <-> exists y, In y (firstn i l ++ seen) /\ eqb x y = true).
Proof.
  intros B eqb l; induction l as [|y r IH]; intros seen i x Hx.
  - destruct i; discriminate.
  - destruct i as [|k]; simpl in Hx.
    + injection Hx as ->. eexists. split; [reflexivity |].
      simpl. rewrite existsb_exists. reflexivity.
    + destruct (IH (y :: seen) k x Hx) as [b [Hb Hiff]].
      exists b. split; [exact Hb |]. rewrite Hiff. simpl.
      split; intros [z [Hz Hxz]]; exists z; (split; [| exact Hxz]).
      * apply in_app_or in Hz. simpl in Hz.
        destruct Hz as [Hz|[Hz|Hz]]; [right | now left | right];
          apply in_or_app; tauto.
      * destruct Hz as [Hz|Hz]; [apply in_or_app; right; now left |].
        apply in_app_or in Hz. apply in_or_app. simpl. tauto.
Qed.

(** [drop_duplicates] keeps, of a frame that has a column, the labels and
    the rows that [duplicated] does not flag. *)
Lemma df_drop_duplicates_selects :
  forall df,
    rectangular df ->
    columns df <> [] ->
    index (df_drop_duplicates df) = select (map negb (df_duplicated df)) (index df) /\
    rows (df_drop_duplicates df) = select (map negb (df_duplicated df)) (rows df).
Proof.
  intros df Hrect Hcols. unfold df_drop_duplicates.
  destruct (empty df) eqn:He.
  - pose proof (empty_false_index df Hcols He) as Hidx.
    unfold df_duplicated, rows, len. rewrite Hidx. simpl. split; reflexivity.
  - split; [reflexivity | now apply rows_select].
Qed.

End DropDuplicates.

(** With duplicate removal selected, the frame that leaves that step has
    no row equal to an earlier one (when it has a column at all), and
    removing duplicates again changes nothing.  The rows taken out are the
    ones [duplicated()] flags, and those are the rows equal to an earlier
    row: of every group of equal rows the first is kept, with its label.
    With no later step selected the frame is the result. *)
Theorem rows_are_distinct_after_duplicate_removal :
  forall (f : form) (df : DataFrame),
    wf_frame df ->
    drop_duplicates f = true ->
    exists df1 df2,
      step_drop_cols f df = Ok df1 /\
      after_drop_duplicates f df = Ok df2 /\
      df_drop_duplicates df2 = df2 /\
      (columns df1 <> [] ->
       Forall (fun b => b = false) (df_duplicated df2) /\
       len df2 + List.length (filter id (df_duplicated df1)) = len df /\
       index df2 = select (map negb (df_duplicated df1)) (index df1) /\
       rows df2 = select (map negb (df_duplicated df1)) (rows df1) /\
       (forall i r,
          nth_error (rows df1) i = Some r ->
          exists b,
            nth_error (df_duplicated df1) i = Some b /\
            (b = true <->
             exists j r', j < i /\ nth_error (rows df1) j = Some r' /\
                          row_eqb r r' = true))) /\
      (drop_empty_cols f = false -> fill_numeric_mean f = false ->
       fill_categorical_mode f = false -> clean f df = Ok df2).
Proof.
  intros f df Hwf Hdup.
  destruct (clean_stages f df) as [df1 [E1 [E2 [_ [_ E5]]]]].
  exists df1. eexists. split; [exact E1 |]. split; [exact E2 |].
  assert (Hrect : rectangular df1).
  { rewrite step_drop_cols_filter in E1. injection E1 as <-.
    apply wf_rectangular. now apply wf_filter_columns. }
  assert (Hlen : len df1 = len df).
  { rewrite step_drop_cols_filter in E1. injection E1 as <-. reflexivity. }
  unfold step_drop_duplicates in *. rewrite Hdup in *.
  split; [now apply df_drop_duplicates_idempotent |]. split.
  - intro Hcols.
    destruct (df_drop_duplicates_distinct df1 Hrect Hcols) as [Hnone Hcount].
    destruct (df_drop_duplicates_selects df1 Hrect Hcols) as [Hindex Hrows].
    split; [exact Hnone |]. split; [now rewrite <- Hlen |].
    split; [exact Hindex |]. split; [exact Hrows |].
    intros i r Hr. unfold df_duplicated, duplicated.
    destruct (duplicated_from_nth _ row_eqb (rows df1) [] i r Hr) as [b [Hb Hiff]].
    exists b. split; [exact Hb |]. rewrite Hiff. rewrite app_nil_r.
    split.
    + intros [r' [Hin Heq]]. apply In_firstn_nth in Hin.
      destruct Hin as [j [Hj Hr']]. now exists j, r'.
    + intros [j [r' [Hj [Hr' Heq]]]]. exists r'. split; [| exact Heq].
      apply In_firstn_nth. now exists j.
  - intros H3 H4 H5. rewrite E5.
    unfold step_fill_categorical_mode, step_fill_numeric_mean, step_drop_empty_cols.
    now rewrite H3, H4, H5.
Qed.

(** A frame without rows goes through every step after the column drop
    unchanged, whatever is selected. *)
Theorem frame_without_rows_passes_through :
  forall (f : form) (df : DataFrame),
    wf_frame df ->
    len df = 0 ->
    clean f df = step_drop_cols f df.
Proof.
  intros f df Hwf H0.
  destruct (clean_stages f df) as [df1 [E1 [_ [_ [_ E5]]]]].
  rewrite E5, E1. f_equal.
  assert (Hrect : rectangular df1).
  { rewrite step_drop_cols_filter in E1. injection E1 as <-.
    apply wf_rectangular. now apply wf_filter_columns. }
  assert (Hlen : len df1 = 0).
  { rewrite step_drop_cols_filter in E1. injection E1 as <-. exact H0. }
  clear E1 E5 Hwf H0. destruct df1 as [idx cols]. unfold len in Hlen. simpl in Hlen.
  apply length_zero_iff_nil in Hlen. subst idx.
  assert (Hnil : forall c, In c cols -> values (snd c) = []).
  { intros c Hc. apply length_zero_iff_nil. exact (Hrect c Hc). }
  assert (S2 : step_drop_duplicates f (mkDataFrame [] cols) = mkDataFrame [] cols).
  { unfold step_drop_duplicates, df_drop_duplicates. destruct (drop_duplicates f); reflexivity. }
  rewrite S2.
  assert (S3 : step_drop_empty_cols f (mkDataFrame [] cols) = mkDataFrame [] cols).
  { unfold step_drop_empty_cols, df_dropna_columns. destruct (drop_empty_cols f); [| reflexivity].
    simpl. f_equal. apply forallb_filter_id. apply forallb_forall. intros c _.
    unfold len. simpl. exact (half_threshold 0 (series_count (snd c))). }
  rewrite S3.
  assert (S4 : step_fill_numeric_mean f (mkDataFrame [] cols) = mkDataFrame [] cols).
  { unfold step_fill_numeric_mean. destruct (fill_numeric_mean f); [| reflexivity].
    simpl. f_equal. rewrite <- (map_id cols) at 2. apply map_ext_in.
    intros [n [d v]] Hc. simpl. destruct (is_number d); [| reflexivity].
    specialize (Hnil _ Hc). simpl in Hnil. subst v. reflexivity. }
  rewrite S4.
  unfold step_fill_categorical_mode. destruct (fill_categorical_mode f); [| reflexivity].
  simpl. f_equal. rewrite <- (map_id cols) at 2. apply map_ext_in.
  intros [n [d v]] Hc. simpl. destruct (is_number d); [reflexivity |].
  specialize (Hnil _ Hc). simpl in Hnil. subst v. reflexivity.
Qed.

Lemma filter_none :
  forall (A : Type) (p : A -> bool) (l : list A),
    (forall x, In x l -> p x = false) -> filter p l = [].
Proof.
  intros A p l; induction l as [|x r IH]; intro H; simpl; [reflexivity |].
  rewrite (H x (or_introl eq_refl)). apply IH. intros y Hy. apply H. now right.
Qed.

(** When the form lists every column, the result has no column and keeps
    every row label of the input: a frame without columns is empty for
    [drop_duplicates], which then removes nothing. *)
Theorem dropping_every_column_keeps_every_row :
  forall (f : form) (df : DataFrame),
    (forall n, In n (column_names df) -> In n (drop_cols f)) ->
    clean f df = Ok (mkDataFrame (index df) []).
Proof.
  intros f df Hall.
  destruct (clean_stages f df) as [df1 [E1 [_ [_ [_ E5]]]]].
  rewrite E5. f_equal.
  rewrite step_drop_cols_filter in E1. injection E1 as <-.
  rewrite filter_none.
  2:{ intros c Hc. apply negb_false_iff. apply named_in_In. apply Hall.
      unfold column_names. now apply in_map. }
  unfold step_fill_categorical_mode, step_fill_numeric_mean, step_drop_empty_cols,
    step_drop_duplicates, df_drop_duplicates, df_dropna_columns, empty.
  destruct (drop_duplicates f), (drop_empty_cols f), (fill_numeric_mean f),
    (fill_categorical_mode f), (index df); reflexivity.
Qed.

(** ** More of the profile *)

(** For every column the profile's [unique] and [duplicates] add up to the
    number of cells: each cell is a first occurrence or a duplicate. *)
Theorem unique_and_duplicates_make_row_count :
  forall df : DataFrame,
    Forall2 (fun c i => column i = fst c /\
                        unique_ i + duplicates i = List.length (values (snd c)))
            (columns df) (df_profile df).
Proof.
  intro df. unfold df_profile. apply Forall2_map_right. intros [n s] _. simpl.
  split; [reflexivity |].
  unfold series_nunique, series_duplicates, unique, duplicated.
  apply select_negb_length. apply duplicated_from_length.
Qed.

(** [unique] counts the missing marker as one more value: it is the number
    of distinct non-missing values, plus one when the column has a missing
    cell. *)
Theorem unique_counts_missing_once :
  forall df : DataFrame,
    Forall2 (fun c i =>
               column i = fst c /\
               unique_ i =
               List.length (unique (filter notna (values (snd c))))
               + (if existsb isna (values (snd c)) then 1 else 0))
            (columns df) (df_profile df).
Proof.
  intro df. unfold df_profile. apply Forall2_map_right. intros [n [d l]] _. simpl.
  split; [reflexivity |]. unfold series_nunique. simpl.
  assert (H1 : List.length (unique l)
               + List.length (filter id (duplicated_from cell_eqb [] l)) = List.length l).
  { unfold unique, duplicated. apply select_negb_length. apply duplicated_from_length. }
  assert (H2 : List.length (unique (filter notna l))
               + List.length (filter id (duplicated_from cell_eqb [] (filter notna l)))
               = List.length (filter notna l)).
  { unfold unique, duplicated. apply select_negb_length. apply duplicated_from_length. }
  pose proof (duplicated_from_missing l []) as H3. simpl in H3.
  pose proof (filter_length isna l) as H4. fold notna in H4.
  assert (H5 : existsb isna l = true <-> 0 < List.length (filter isna l)).
  { rewrite existsb_exists. split.
    - intros [x [Hx Hna]].
      assert (In x (filter isna l)) by (apply filter_In; auto).
      destruct (filter isna l); [contradiction | simpl; lia].
    - intro Hpos. destruct (filter isna l) as [|x r] eqn:Ef; [simpl in Hpos; lia |].
      assert (Hx : In x (filter isna l)) by (rewrite Ef; now left).
      apply filter_In in Hx. exists x. exact Hx. }
  destruct (existsb isna l).
  - assert (0 < List.length (filter isna l)) by now apply H5. lia.
  - assert (~ 0 < List.length (filter isna l)) by (intro H; apply H5 in H; discriminate).
    lia.
Qed.

(** A boolean column counts as numeric for the profile, which describes it
    as a categorical column (count, unique, top, freq), but not for the
    histograms and the heat-map, which leave it out. *)
Theorem boolean_column_is_described_but_not_plotted :
  forall (df : DataFrame) (col : string) (s : Series),
    In (col, s) (columns df) ->
    s_dtype s = bool_ ->
    ~ In (col, s) (select_number df) /\
    exists i count uniq top freq,
      In i (df_profile df) /\ column i = col /\
      desc i = Some (describe_categorical count uniq top freq).
Proof.
  intros df col s Hin Hb. split.
  - unfold select_number. rewrite filter_In. simpl. rewrite Hb. simpl.
    intros [_ H]. discriminate.
  - assert (Hdesc : exists count uniq top freq,
               series_describe s = describe_categorical count uniq top freq).
    { unfold series_describe. rewrite Hb.
      destruct (hashtable_mode (filter notna (values s))); eauto. }
    destruct Hdesc as [count [uniq [top [freq Hdesc]]]].
    exists (mkInfo col (dtype_name (s_dtype s)) (series_isna_sum s)
                   (Np.round (series_isna_mean s * 100)%float 2)
                   (series_nunique s) (series_duplicates s)
                   (if is_numeric_dtype (s_dtype s)
                    then Some (series_describe s) else None)).
    exists count, uniq, top, freq. split; [| split].
    + unfold df_profile. apply in_map_iff. exists (col, s). split; [reflexivity | exact Hin].
    + reflexivity.
    + cbn [desc]. rewrite Hdesc, Hb. reflexivity.
Qed.

(** ** The added properties on the example frames *)

Lemma header_only_frame_wf : wf_frame header_only_frame.
Proof.
  constructor.
  - repeat constructor; simpl; intuition discriminate.
  - intros n s H. simpl in H. destruct H as [E|[]]; injection E as <- <-; reflexivity.
  - intros n s H. simpl in H. destruct H as [E|[]]; injection E as <- <-; constructor.
Qed.

Lemma large_frame_len : Z.of_nat (len large_frame) = 2000001%Z.
Proof.
  unfold len, large_frame. cbn [index]. rewrite repeat_length. now rewrite Z2Nat.id.
Qed.

Lemma snapshot_is_consumed_once_witness :
  "/tmp/u1.csv"%string <> ""%string /\
  lookup "/tmp/u1.csv" (files one_snapshot) = Some scenario_frame /\
  read_csv plain_externals scenario_frame = Parsed scenario_frame /\
  join (tempdir plain_externals) ("cleaned_" ++ "u2" ++ ".csv") <> "/tmp/u1.csv"%string /\
  exists cleaned (st1 : state plain_externals),
    clean only_fill_numeric_mean scenario_frame = Ok cleaned /\
    Routes.clean (E:=plain_externals) "u2" (Some "/tmp/u1.csv"%string) only_fill_numeric_mean one_snapshot =
      (SendFile (E:=plain_externals) (join (tempdir plain_externals) ("cleaned_" ++ "u2" ++ ".csv"))
                "cleaned_data.csv" (to_csv plain_externals cleaned), st1) /\
    lookup "/tmp/u1.csv" (files st1) = None /\
    Routes.clean (E:=plain_externals) "u3" (Some "/tmp/u1.csv"%string) only_drop_duplicates st1 =
      (IndexPage (E:=plain_externals) (hd_error (flashes one_snapshot ++ [SessionExpired])),
       mkState (files st1) []) /\
    (flashes one_snapshot = [] ->
     Routes.clean (E:=plain_externals) "u3" (Some "/tmp/u1.csv"%string) only_drop_duplicates st1 =
       (IndexPage (E:=plain_externals) (Some SessionExpired), mkState (files st1) [])).
Proof.
  split; [discriminate |]. split; [reflexivity |]. split; [reflexivity |].
  split; [discriminate |].
  apply (snapshot_is_consumed_once plain_externals "u2" "u3" "/tmp/u1.csv"
           only_fill_numeric_mean only_drop_duplicates one_snapshot
           scenario_frame scenario_frame);
    [discriminate | reflexivity | reflexivity | discriminate].
Defined.

Lemma upload_then_clean_reads_the_snapshot_back_witness :
  exists st1 : state plain_externals,
    read_csv plain_externals scenario_frame = Parsed scenario_frame /\
    Routes.upload (E:=plain_externals) "u1" (Some ("data.csv"%string, scenario_frame)) no_file =
      (ProfilePage (E:=plain_externals) tt [tt; tt] (Some tt) "/tmp/u1.csv" ["id"; "score"]%string, st1) /\
    join (tempdir plain_externals) ("cleaned_" ++ "u2" ++ ".csv") <> "/tmp/u1.csv"%string /\
    exists cleaned (st2 : state plain_externals),
      ["id"; "score"]%string = column_names scenario_frame /\
      clean only_fill_numeric_mean scenario_frame = Ok cleaned /\
      Routes.clean (E:=plain_externals) "u2" (Some "/tmp/u1.csv"%string) only_fill_numeric_mean st1 =
        (SendFile (E:=plain_externals) (join (tempdir plain_externals) ("cleaned_" ++ "u2" ++ ".csv"))
                  "cleaned_data.csv" (to_csv plain_externals cleaned), st2) /\
      lookup "/tmp/u1.csv" (files st2) = None /\
      lookup (join (tempdir plain_externals) ("cleaned_" ++ "u2" ++ ".csv")) (files st2)
        = Some (to_csv plain_externals cleaned) /\
      forall q,
        q <> "/tmp/u1.csv"%string ->
        q <> join (tempdir plain_externals) ("cleaned_" ++ "u2" ++ ".csv") ->
        lookup q (files st2) = lookup q (files no_file).
Proof.
  eexists. split; [reflexivity |]. split; [reflexivity |]. split; [discriminate |].
  apply (upload_then_clean_reads_the_snapshot_back plain_externals "u1" "u2" "data.csv"
           scenario_frame only_fill_numeric_mean no_file _ scenario_frame scenario_frame
           tt [tt; tt] (Some tt) "/tmp/u1.csv" ["id"; "score"]%string);
    [reflexivity | reflexivity | reflexivity | discriminate].
Defined.

Lemma unanswered_request_leaves_files_untouched_witness :
  succeeded (fst (handle (E:=plain_externals) (PostClean (E:=plain_externals) "u2" (Some "/tmp/gone.csv"%string) only_drop_duplicates)
                         one_snapshot)) = false /\
  files (snd (handle (E:=plain_externals) (PostClean (E:=plain_externals) "u2" (Some "/tmp/gone.csv"%string) only_drop_duplicates)
                     one_snapshot)) = files one_snapshot.
Proof.
  split; [reflexivity |].
  apply (unanswered_request_leaves_files_untouched plain_externals
           (PostClean (E:=plain_externals) "u2" (Some "/tmp/gone.csv"%string) only_drop_duplicates) one_snapshot).
  reflexivity.
Defined.

Lemma request_changes_only_the_paths_it_names_witness :
  ~ In "/tmp/u1.csv"%string
       (touched (@PostUpload plain_externals "u9" (Some ("data.csv"%string, flags_frame)))) /\
  lookup "/tmp/u1.csv"
         (files (snd (handle (E:=plain_externals) (PostUpload (E:=plain_externals) "u9" (Some ("data.csv"%string, flags_frame)))
                             one_snapshot)))
  = lookup "/tmp/u1.csv" (files one_snapshot).
Proof.
  assert (H : ~ In "/tmp/u1.csv"%string
                (touched (@PostUpload plain_externals "u9"
                                      (Some ("data.csv"%string, flags_frame))))).
  { simpl. intros [E|[]]. discriminate. }
  split; [exact H |].
  apply (request_changes_only_the_paths_it_names plain_externals
           (PostUpload (E:=plain_externals) "u9" (Some ("data.csv"%string, flags_frame))) one_snapshot
           "/tmp/u1.csv" H).
Defined.

Lemma large_frame_upload :
  Routes.upload (E:=plain_externals) "u1" (Some ("big.csv"%string, large_frame)) no_file =
  (ProfilePage (E:=plain_externals) tt [tt] None "/tmp/u1.csv" ["a"%string],
   @mkState plain_externals [("/tmp/u1.csv"%string, large_frame)]
            [LargeFile (len large_frame)]).
Proof.
  unfold Routes.upload. cbn [String.eqb Ascii.eqb Bool.eqb read_csv plain_externals].
  assert (H : (2000000 <? Z.of_nat (len large_frame))%Z = true)
    by (rewrite large_frame_len; reflexivity).
  rewrite H. reflexivity.
Qed.

Lemma large_file_warning_waits_for_the_next_index_page_witness :
  read_csv plain_externals large_frame = Parsed large_frame /\
  (2000000 < Z.of_nat (len large_frame))%Z /\
  flashes no_file = [] /\
  flashes (@mkState plain_externals [("/tmp/u1.csv"%string, large_frame)]
                    [LargeFile (len large_frame)]) = [LargeFile (len large_frame)] /\
  forall (req : request plain_externals) (m : option message),
    fst (handle req (@mkState plain_externals [("/tmp/u1.csv"%string, large_frame)]
                              [LargeFile (len large_frame)])) = IndexPage m ->
    m = Some (LargeFile (len large_frame)).
Proof.
  assert (Hlarge : (2000000 < Z.of_nat (len large_frame))%Z)
    by (rewrite large_frame_len; lia).
  split; [reflexivity |]. split; [exact Hlarge |]. split; [reflexivity |].
  apply (large_file_warning_waits_for_the_next_index_page plain_externals "u1" "big.csv"
           large_frame no_file _ large_frame tt [tt] None "/tmp/u1.csv" ["a"%string]);
    [reflexivity | exact Hlarge | reflexivity | exact large_frame_upload].
Defined.

Lemma rows_are_distinct_after_duplicate_removal_witness :
  wf_frame sparse_frame /\
  drop_duplicates only_drop_duplicates = true /\
  exists df1 df2,
    step_drop_cols only_drop_duplicates sparse_frame = Ok df1 /\
    after_drop_duplicates only_drop_duplicates sparse_frame = Ok df2 /\
    df_drop_duplicates df2 = df2 /\
    (columns df1 <> [] ->
     Forall (fun b => b = false) (df_duplicated df2) /\
     len df2 + List.length (filter id (df_duplicated df1)) = len sparse_frame /\
     index df2 = select (map negb (df_duplicated df1)) (index df1) /\
     rows df2 = select (map negb (df_duplicated df1)) (rows df1) /\
     (forall i r,
        nth_error (rows df1) i = Some r ->
        exists b,
          nth_error (df_duplicated df1) i = Some b /\
          (b = true <->
           exists j r', j < i /\ nth_error (rows df1) j = Some r' /\
                        row_eqb r r' = true))) /\
    (drop_empty_cols only_drop_duplicates = false ->
     fill_numeric_mean only_drop_duplicates = false ->
     fill_categorical_mode only_drop_duplicates = false ->
     clean only_drop_duplicates sparse_frame = Ok df2).
Proof.
  split; [exact sparse_frame_wf |]. split; [reflexivity |].
  apply (rows_are_distinct_after_duplicate_removal only_drop_duplicates sparse_frame);
    [exact sparse_frame_wf | reflexivity].
Defined.

Lemma frame_without_rows_passes_through_witness :
  wf_frame header_only_frame /\
  len header_only_frame = 0 /\
  clean only_drop_duplicates_and_empty_cols header_only_frame =
  step_drop_cols only_drop_duplicates_and_empty_cols header_only_frame.
Proof.
  split; [exact header_only_frame_wf |]. split; [reflexivity |].
  apply (frame_without_rows_passes_through only_drop_duplicates_and_empty_cols
           header_only_frame); [exact header_only_frame_wf | reflexivity].
Defined.

Lemma dropping_every_column_keeps_every_row_witness :
  (forall n, In n (column_names scenario_frame) -> In n (drop_cols drop_both_columns)) /\
  clean drop_both_columns scenario_frame = Ok (mkDataFrame (index scenario_frame) []).
Proof.
  assert (H : forall n, In n (column_names scenario_frame) ->
                        In n (drop_cols drop_both_columns))
    by (intros n Hn; exact Hn).
  split; [exact H |].
  apply (dropping_every_column_keeps_every_row drop_both_columns scenario_frame H).
Defined.

Lemma boolean_column_is_described_but_not_plotted_witness :
  In ("ok"%string, mkSeries bool_ [Bool true; Bool false; Bool true]) (columns flags_frame) /\
  s_dtype (mkSeries bool_ [Bool true; Bool false; Bool true]) = bool_ /\
  ~ In ("ok"%string, mkSeries bool_ [Bool true; Bool false; Bool true])
       (select_number flags_frame) /\
  exists i count uniq top freq,
    In i (df_profile flags_frame) /\ column i = "ok"%string /\
    desc i = Some (describe_categorical count uniq top freq).
Proof.
  split; [simpl; tauto |]. split; [reflexivity |].
  apply (boolean_column_is_described_but_not_plotted flags_frame "ok"%string
           (mkSeries bool_ [Bool true; Bool false; Bool true]));
    [simpl; tauto | reflexivity].
Defined.

(** ** Composing the steps *)

Section StepsCompose.

Lemma filter_idempotent :
  forall (A : Type) (p : A -> bool) (l : list A), filter p (filter p l) = filter p l.
Proof.
  intros A p l. apply forallb_filter_id. apply forallb_forall.
  intros x Hx. apply filter_In in Hx. tauto.
Qed.

Lemma select_In :
  forall (A : Type) (mask : list bool) (l : list A) (x : A),
    In x (select mask l) -> In x l.
Proof.
  intros A mask; induction mask as [|b m IH]; intros [|y r] x H; simpl in *;
    try contradiction.
  destruct b; [destruct H as [->|H] |]; auto.
Qed.

Lemma insert_cell_In :
  forall x l l', insert_cell x l = Some l' -> forall y, In y l' -> y = x \/ In y l.
Proof.
  intros x l; induction l as [|z r IH]; intros l' H y Hy; simpl in H.
  - injection H as <-. destruct Hy as [<-|[]]. now left.
  - destruct (cell_leb x z) as [[|]|]; try discriminate.
    + injection H as <-. destruct Hy as [<-|Hy]; [now left | now right].
    + destruct (insert_cell x r) as [r'|] eqn:Er; [| discriminate].
      injection H as <-. destruct Hy as [<-|Hy]; [right; now left |].
      destruct (IH r' eq_refl y Hy) as [->|Hin]; [now left | right; now right].
Qed.

Lemma sort_cells_In :
  forall l l', sort_cells l = Some l' -> forall y, In y l' -> In y l.
Proof.
  induction l as [|x r IH]; intros l' H y Hy; simpl in H.
  - injection H as <-. exact Hy.
  - destruct (sort_cells r) as [r'|] eqn:Er; [| discriminate].
    destruct (insert_cell_In x r' l' H y Hy) as [->|Hin]; [now left |].
    right. now apply (IH r' eq_refl).
Qed.

(** A mode is a cell of the column that is not missing. *)
Lemma series_mode_notna :
  forall s m, In m (series_mode s) -> isna m = false.
Proof.
  intros s m Hm.
  assert (Hmode : In m (hashtable_mode (values s))).
  { unfold series_mode in Hm. destruct (sort_cells (hashtable_mode (values s))) eqn:E;
      [now apply (sort_cells_In _ _ E) | exact Hm]. }
  unfold hashtable_mode in Hmode. apply filter_In in Hmode. destruct Hmode as [Hk _].
  unfold unique in Hk. apply select_In in Hk. apply filter_In in Hk.
  destruct Hk as [_ Hna]. unfold notna in Hna. now apply negb_true_iff.
Qed.

Lemma fill_mean_idempotent :
  forall s, s_dtype s <> object -> fill_mean (fill_mean s) = fill_mean s.
Proof.
  intros s Hd. destruct (PrimFloat.is_nan (series_mean s)) eqn:En.
  - assert (E : fill_mean s = s).
    { unfold fill_mean, mk_float. rewrite En. now apply fillna_NA. }
    now rewrite !E.
  - unfold fill_mean at 1. apply fillna_all_present.
    unfold fill_mean. apply fillna_notna. now rewrite isna_mk_float.
Qed.

Lemma fill_mode_idempotent : forall s, fill_mode (fill_mode s) = fill_mode s.
Proof.
  intro s. destruct (series_mode s) as [|m r] eqn:Em.
  - assert (E : fill_mode s = s) by (unfold fill_mode; now rewrite Em).
    now rewrite !E.
  - assert (E : fill_mode s = series_fillna s m) by (unfold fill_mode; now rewrite Em).
    rewrite E. apply fill_mode_none_missing. apply fillna_notna.
    apply (series_mode_notna s). rewrite Em. now left.
Qed.

(** Mode filling either leaves the column as it is or leaves it without a
    missing cell: mean filling has nothing to change in a column that mode
    filling has turned into a numeric one. *)
Lemma fill_mean_after_fill_mode :
  forall s,
    is_number (s_dtype s) = false ->
    is_number (s_dtype (fill_mode s)) = true ->
    fill_mean (fill_mode s) = fill_mode s.
Proof.
  intros s Hs Hn. unfold fill_mode in *.
  destruct (series_mode s) as [|m r] eqn:Em; [congruence |].
  unfold fill_mean. apply fillna_all_present. apply fillna_notna.
  apply (series_mode_notna s). rewrite Em. now left.
Qed.

End StepsCompose.

(** Mean filling and mode filling give the same frame in either order.
    Mean filling leaves a numeric column numeric, so mode filling passes it
    by before and after; mode filling leaves a column that is not numeric
    either not numeric, or without a missing cell for mean filling to
    change. *)
Theorem fill_steps_commute :
  forall (f : form) (df : DataFrame),
    step_fill_categorical_mode f (step_fill_numeric_mean f df) =
    step_fill_numeric_mean f (step_fill_categorical_mode f df).
Proof.
  intros f df. unfold step_fill_categorical_mode, step_fill_numeric_mean.
  destruct (fill_categorical_mode f), (fill_numeric_mean f); try reflexivity.
  simpl. f_equal. rewrite !map_map. apply map_ext. intros [n s]. simpl.
  destruct (is_number (s_dtype s)) eqn:En; simpl.
  - rewrite (fill_mean_typed s) by now apply number_not_object.
    now rewrite En.
  - rewrite En. simpl.
    destruct (is_number (s_dtype (fill_mode s))) eqn:Em; [| reflexivity].
    now rewrite fill_mean_after_fill_mode.
Qed.

(** Each cleaning step, applied a second time to its own result, changes
    nothing. *)
Theorem each_cleaning_step_is_idempotent :
  forall (f : form) (df : DataFrame),
    wf_frame df ->
    (forall df1, step_drop_cols f df = Ok df1 -> step_drop_cols f df1 = Ok df1) /\
    step_drop_duplicates f (step_drop_duplicates f df) = step_drop_duplicates f df /\
    step_drop_empty_cols f (step_drop_empty_cols f df) = step_drop_empty_cols f df /\
    step_fill_numeric_mean f (step_fill_numeric_mean f df) = step_fill_numeric_mean f df /\
    step_fill_categorical_mode f (step_fill_categorical_mode f df)
      = step_fill_categorical_mode f df.
Proof.
  intros f df Hwf. split; [| split; [| split; [| split]]].
  - intros df1 E1. rewrite step_drop_cols_filter in E1. injection E1 as <-.
    rewrite step_drop_cols_filter. simpl. now rewrite filter_idempotent.
  - unfold step_drop_duplicates. destruct (drop_duplicates f); [| reflexivity].
    apply df_drop_duplicates_idempotent. now apply wf_rectangular.
  - unfold step_drop_empty_cols, df_dropna_columns.
    destruct (drop_empty_cols f); [| reflexivity]. simpl. f_equal.
    unfold len. simpl. apply filter_idempotent.
  - unfold step_fill_numeric_mean. destruct (fill_numeric_mean f); [| reflexivity].
    simpl. f_equal. rewrite map_map. apply map_ext. intros [n s]. simpl.
    destruct (is_number (s_dtype s)) eqn:En; simpl; [| now rewrite En].
    pose proof (number_not_object _ En) as Hd.
    rewrite (fill_mean_typed s Hd), En. now rewrite fill_mean_idempotent.
  - unfold step_fill_categorical_mode. destruct (fill_categorical_mode f); [| reflexivity].
    simpl. f_equal. rewrite map_map. apply map_ext. intros [n s]. simpl.
    destruct (is_number (s_dtype s)) eqn:En; simpl.
    + now rewrite En.
    + destruct (is_number (s_dtype (fill_mode s))); [reflexivity |].
      now rewrite fill_mode_idempotent.
Qed.

(** The steps on [sparse_frame]. *)
Lemma each_cleaning_step_is_idempotent_witness :
  wf_frame sparse_frame /\
  (forall df1, step_drop_cols only_drop_duplicates_and_empty_cols sparse_frame = Ok df1 ->
               step_drop_cols only_drop_duplicates_and_empty_cols df1 = Ok df1) /\
  step_drop_duplicates only_drop_duplicates_and_empty_cols
    (step_drop_duplicates only_drop_duplicates_and_empty_cols sparse_frame)
  = step_drop_duplicates only_drop_duplicates_and_empty_cols sparse_frame /\
  step_drop_empty_cols only_drop_duplicates_and_empty_cols
    (step_drop_empty_cols only_drop_duplicates_and_empty_cols sparse_frame)
  = step_drop_empty_cols only_drop_duplicates_and_empty_cols sparse_frame /\
  step_fill_numeric_mean only_drop_duplicates_and_empty_cols
    (step_fill_numeric_mean only_drop_duplicates_and_empty_cols sparse_frame)
  = step_fill_numeric_mean only_drop_duplicates_and_empty_cols sparse_frame /\
  step_fill_categorical_mode only_drop_duplicates_and_empty_cols
    (step_fill_categorical_mode only_drop_duplicates_and_empty_cols sparse_frame)
  = step_fill_categorical_mode only_drop_duplicates_and_empty_cols sparse_frame.
Proof.
  split; [exact sparse_frame_wf |].
  apply (each_cleaning_step_is_idempotent only_drop_duplicates_and_empty_cols sparse_frame).
  exact sparse_frame_wf.
Defined.
